(** * vault-manager: the configuration registry, the item diff and the
      audit-device handler

    A shallow embedding of package [toplevel] (src/toplevel/toplevel.go) and
    of package [audit] (the handler registered as [vault_audit_backends]),
    with the properties of the written specification proved about them.

    Go values are modelled as follows.
    - [string] is a Rocq [string]; [[]byte] is a [list byte].
    - A slice is [slice.t A]: [None] is the nil slice, [Some l] a non-nil
      slice with elements [l].
    - A map is an [option (gmap string V)]: [None] is the nil map.
    - [interface{}] is the type [any] of dynamically typed values.
    - A function that can abort returns a [result]; a function of the process
      (logging, remote calls, exit) is a computation in the monad [M]. *)

From Stdlib Require Import ZArith.
From stdpp Require Import base option list strings gmap fin_maps.

(** ** Slices *)

Module slice.
Definition t (A : Type) : Type := option (list A).

(** [make([]T, 0)]: a non-nil slice of length 0. *)
Definition make {A : Type} : t A := Some [].

(** The elements a [range] loop visits; a nil slice has none. *)
Definition elems {A : Type} (s : t A) : list A :=
  match s with
  | Some l => l
  | None => []
  end.

(** [append(s, x)]: never nil. *)
Definition append {A : Type} (s : t A) (x : A) : t A := Some (elems s ++ [x]).
End slice.

(** ** The audit entry and dynamically typed values *)

(** [audit.entry]. The field [Type] is spelled [Type_]. *)
Record entry : Type := Entry {
  Path : string;
  Type_ : string;
  Description : string;
  Options : option (gmap string string)
}.

(** The zero value of [entry], the first result of a failed [i.(entry)]. *)
Definition zero_entry : entry :=
  {| Path := ""; Type_ := ""; Description := ""; Options := None |}.

(** The dynamic type of an interface value. *)
Inductive go_type : Type :=
| T_entry                       (* audit.entry *)
| T_entry_ptr                   (* *audit.entry *)
| T_string
| T_int
| T_bool
| T_named (name : string).      (* any other named type *)

(** [interface{}]: a value together with its concrete type. *)
Inductive any : Type :=
| nil_interface
| of_entry (e : entry)
| of_entry_ptr (p : option entry)
| of_string (s : string)
| of_int (n : Z)
| of_bool (b : bool)
| of_named (name : string) (fields : list (string * string)).

Definition concrete_type (i : any) : option go_type :=
  match i with
  | nil_interface => None
  | of_entry _ => Some T_entry
  | of_entry_ptr _ => Some T_entry_ptr
  | of_string _ => Some T_string
  | of_int _ => Some T_int
  | of_bool _ => Some T_bool
  | of_named name _ => Some (T_named name)
  end.

(** The two-result type assertion [x, ok := i.(entry)]: it never panics. *)
Definition assert_entry_ok (i : any) : entry * bool :=
  match i with
  | of_entry e => (e, true)
  | _ => (zero_entry, false)
  end.

(** ** Results of functions that can abort *)

Inductive result (A : Type) : Type :=
| Returned (a : A)
| Exited (code : Z)             (* os.Exit(code) *)
| Panicked (v : string).        (* panic(v) *)
Arguments Returned {A} a.
Arguments Exited {A} code.
Arguments Panicked {A} v.

(** The one-result type assertion [i.(entry)] panics on a mismatch. *)
Definition assert_entry (i : any) : result entry :=
  match i with
  | of_entry e => Returned e
  | _ => Panicked "interface conversion: interface is not audit.entry"
  end.

(** ** Package vault: items and their diff *)

Module vault.

(** Modelled from the spec: the interface [vault.Item] is declared in
    pkg/vault, which is not among the sources. It has the methods
    [Key() string] and [Equals(interface{}) bool]; an interface value is
    the two methods of the concrete value it wraps and that value itself. *)
Record Item : Type := {
  Key : string;
  Equals : any -> bool;
  underlying : any
}.

(** [d.Equals(o)] for two items: [o] is passed as an [interface{}]. *)
Definition equals (d o : Item) : bool := Equals d (underlying o).

Definition same_key (a b : Item) : bool := String.eqb (Key a) (Key b).

(** Step 1 of the algorithm, for one desired item [d]. *)
Definition to_write (observed : list Item) (d : Item) : bool :=
  match find (fun o => same_key o d) observed with
  | None => true
  | Some o => negb (equals d o)
  end.

(** Step 2 of the algorithm, for one observed item [o]. *)
Definition to_delete (desired : list Item) (o : Item) : bool :=
  negb (existsb (fun d => same_key d o && equals d o) desired).

(** Modelled from the spec: [DiffItems] of pkg/vault is not among the
    sources. Section 4.2: each desired item is paired with the observed item
    of the same key; it is written when there is none or when it does not
    equal it. Each observed item is deleted unless some desired item has its
    key and equals it. Both results keep the order of their input. *)
Definition DiffItems (desired observed : list Item) : list Item * list Item :=
  (List.filter (to_write observed) desired,
   List.filter (to_delete desired) observed).

End vault.

(** ** The process: log, remote calls, exit and panic *)

(** Go [error] values, by their message. *)
Definition error : Type := string.

(** [api.Audit], an audit device as the remote service lists it. *)
Record Audit : Type := {
  Audit_Type : string;
  Audit_Description : string;
  Audit_Options : option (gmap string string);
  Audit_Local : bool;
  Audit_Path : string
}.

(** [api.EnableAuditOptions]. *)
Record EnableAuditOptions : Type := {
  EnableAudit_Type : string;
  EnableAudit_Description : string;
  EnableAudit_Options : option (gmap string string);
  EnableAudit_Local : bool
}.

(** The calls of [client.Sys()] the handler makes. *)
Inductive call : Type :=
| CallListAudit
| CallEnableAuditWithOptions (path : string) (options : EnableAuditOptions)
| CallDisableAudit (path : string).

Inductive level : Type := InfoLevel | FatalLevel.

(** What the process does that can be observed from outside. *)
Inductive event : Type :=
| Log (lvl : level) (fields : list (string * string)) (msg : string)
| Logf (lvl : level) (format : string) (args : list any)
| Remote (c : call).

(** The remote service behind [vault.ClientFromEnv().Sys()]: a state of type
    [Vault] and the three calls, each of which may fail and may change it. *)
Class Sys (Vault : Type) : Type := {
  ListAudit : Vault -> (option (gmap string (option Audit)) * option error) * Vault;
  EnableAuditWithOptions : string -> EnableAuditOptions -> Vault -> option error * Vault;
  DisableAudit : string -> Vault -> option error * Vault
}.

(** Functions of other packages the sources call, taken as they are.
    [ToLower] is [strings.ToLower] and [Unmarshal] is [yaml.Unmarshal] into a
    [[]entry]. [map_range] is the order in which a [range] loop visits a
    map in the run at hand; Go leaves it unspecified, nothing is assumed of
    it here, and another run may visit the same map in another order.
    [EqualPathNames] and [OptionsEqual] belong to pkg/vault, which is not
    among the sources. *)
Class Library : Type := {
  ToLower : string -> string;
  Unmarshal : list Byte.byte -> slice.t entry * option error;
  map_range : gmap string (option Audit) -> list (string * option Audit);
  EqualPathNames : string -> string -> bool;
  OptionsEqual : gmap string any -> gmap string any -> bool
}.

(** A computation of the process: from the state of the remote service to a
    result, the new state and the events emitted, oldest first. *)
Definition M (Vault : Type) (A : Type) : Type :=
  Vault -> result A * Vault * list event.

#[global] Instance M_ret {Vault : Type} : MRet (M Vault) :=
  fun A a v => (Returned a, v, []).

#[global] Instance M_bind {Vault : Type} : MBind (M Vault) :=
  fun A B f m v =>
    match m v with
    | (Returned a, v1, t1) =>
        match f a v1 with
        | (r, v2, t2) => (r, v2, t1 ++ t2)
        end
    | (Exited code, v1, t1) => (Exited code, v1, t1)
    | (Panicked p, v1, t1) => (Panicked p, v1, t1)
    end.

Definition emit {Vault : Type} (e : event) : M Vault unit :=
  fun v => (Returned tt, v, [e]).

Definition exit {Vault : Type} (code : Z) : M Vault unit :=
  fun v => (Exited code, v, []).

Definition lift {Vault : Type} {A : Type} (r : result A) : M Vault A :=
  fun v => (r, v, []).

(** [for _, x := range xs { body }]. *)
Fixpoint for_each {Vault : Type} {A : Type} (xs : list A) (body : A -> M Vault unit)
  : M Vault unit :=
  match xs with
  | [] => mret tt
  | x :: rest => body x ;; for_each rest body
  end.

Definition trace_of {Vault : Type} {A : Type} (out : result A * Vault * list event)
  : list event := snd out.

Definition result_of {Vault : Type} {A : Type} (out : result A * Vault * list event)
  : result A := fst (fst out).

(** The calls that change the remote service, in the order they were made. *)
Definition mutation (e : event) : option call :=
  match e with
  | Remote (CallEnableAuditWithOptions path options) =>
      Some (CallEnableAuditWithOptions path options)
  | Remote (CallDisableAudit path) => Some (CallDisableAudit path)
  | _ => None
  end.

Definition mutations (t : list event) : list call := omap mutation t.

(** ** Package logrus *)

Module logrus.
Section logrus.
Context {Vault : Type}.

(** [logrus.WithField(k, v).Info(msg)]. *)
Definition Info (fields : list (string * string)) (msg : string) : M Vault unit :=
  emit (Log InfoLevel fields msg).

(** [logrus.Infof(format, args...)]. *)
Definition Infof (format : string) (args : list any) : M Vault unit :=
  emit (Logf InfoLevel format args).

(** [logrus.WithField(k, v).Fatal(msg)]: logs, then [os.Exit(1)]. *)
Definition Fatal (fields : list (string * string)) (msg : string)
  : M Vault unit :=
  emit (Log FatalLevel fields msg) ;; exit 1.
End logrus.
End logrus.

(** The calls of [vault.ClientFromEnv().Sys()], as computations: each one
    is recorded in the trace. *)
Section client.
Context {Vault : Type} {S : Sys Vault}.

Definition Sys_ListAudit
  : M Vault (option (gmap string (option Audit)) * option error) :=
  fun v =>
    match ListAudit v with
    | (r, v1) => (Returned r, v1, [Remote CallListAudit])
    end.

Definition Sys_EnableAuditWithOptions (path : string) (options : EnableAuditOptions)
  : M Vault (option error) :=
  fun v =>
    match EnableAuditWithOptions path options v with
    | (err, v1) => (Returned err, v1, [Remote (CallEnableAuditWithOptions path options)])
    end.

Definition Sys_DisableAudit (path : string) : M Vault (option error) :=
  fun v =>
    match DisableAudit path v with
    | (err, v1) => (Returned err, v1, [Remote (CallDisableAudit path)])
    end.
End client.

(** ** Package toplevel: the registry (src/toplevel/toplevel.go) *)

Module toplevel.

(** The interface [Configuration], with its one method
    [Apply([]byte, bool)]. A nil [Configuration] is [None]. *)
Module Configuration.
Record t (Vault : Type) : Type := { Apply : list Byte.byte -> bool -> M Vault unit }.
Arguments Apply {Vault} _ _ _.
End Configuration.

Section registry.
Context {Vault : Type} {L : Library}.

(** [RegisterConfiguration], on the package variable [configs], which is
    passed in and returned. The mutex is not modelled. *)
Definition RegisterConfiguration
    (configs : gmap string (Configuration.t Vault))
    (name : string) (c : option (Configuration.t Vault))
  : result (gmap string (Configuration.t Vault)) :=
  if String.eqb name "" then
    Panicked "toplevel: could not register a Configuration with an empty name"
  else
    match c with
    | None => Panicked "toplevel: could not register a nil Configuration"
    | Some c =>
        let name := ToLower name in
        match configs !! name with
        | Some _ =>
            Panicked ("toplevel: RegisterConfiguration called twice for " ++ name)
        | None => Returned (<[name := c]> configs)
        end
    end.

(** [Apply]. When the name is missing [c] is nil, but [Fatal] has left
    the process before [c.Apply] is reached. *)
Definition Apply
    (configs : gmap string (Configuration.t Vault))
    (name : string) (cfg : list Byte.byte) (dryRun : bool) : M Vault unit :=
  match configs !! name with
  | None =>
      logrus.Fatal [("name", name)] "failed to find top-level configuration" ;;
      lift (Panicked "invalid memory address or nil pointer dereference")
  | Some c => Configuration.Apply c cfg dryRun
  end.
End registry.

(** What [Apply] logs for a name that has no entry. *)
Definition not_found (name : string) : event :=
  Log FatalLevel [("name", name)] "failed to find top-level configuration".

End toplevel.

(** ** Package audit: the handler of audit devices (src/unnamed/part_000) *)

Module audit.

Definition tab : string := String (Ascii.ascii_of_nat 9) "".

Definition written_format : string :=
  "[Dry Run]" ++ tab ++ "package=audit" ++ tab ++ "entry to be written='%v'".

Definition deleted_format : string :=
  "[Dry Run]" ++ tab ++ "package=audit" ++ tab ++ "entry to be deleted='%v'".

Section audit.
Context {Vault : Type} {S : Sys Vault} {L : Library}.

Definition Key (e : entry) : string := Path e.

(** A nil [Options] ranges over nothing. *)
Definition ambiguousOptions (e : entry) : gmap string any :=
  match Options e with
  | Some opts => of_string <$> opts
  | None => ∅
  end.

Definition Equals (e : entry) (i : any) : bool :=
  match assert_entry_ok i with
  | (entry0, ok) =>
      if negb ok then false
      else
        EqualPathNames (Path e) (Path entry0)
        && String.eqb (Type_ e) (Type_ entry0)
        && String.eqb (Description e) (Description entry0)
        && OptionsEqual (ambiguousOptions e) (ambiguousOptions entry0)
  end.

Definition enable (e : entry) : M Vault unit :=
  err ← Sys_EnableAuditWithOptions (Path e)
          {| EnableAudit_Type := Type_ e;
             EnableAudit_Description := Description e;
             EnableAudit_Options := Options e;
             EnableAudit_Local := false |};
  match err with
  | Some _ => logrus.Fatal [("path", Path e)] "failed to enable audit device"
  | None => mret tt
  end ;;
  logrus.Info [("path", Path e)] "audit successfully enabled".

Definition disable (e : entry) : M Vault unit :=
  err ← Sys_DisableAudit (Path e);
  match err with
  | Some _ => logrus.Fatal [("path", Path e)] "failed to disable audit"
  | None => mret tt
  end ;;
  logrus.Info [("path", Path e)] "audit successfully disabled".

(** The conversion of an [entry] to the interface [vault.Item]. *)
Definition Item_of (e : entry) : vault.Item :=
  {| vault.Key := Key e; vault.Equals := Equals e; vault.underlying := of_entry e |}.

Definition asItems (xs : slice.t entry) : slice.t vault.Item :=
  foldl (fun items x => slice.append items (Item_of x)) slice.make (slice.elems xs).

(** The loop of [Apply] over the listed devices, in the order
    [map_range] gives. Reading a field through a nil [*api.Audit]
    panics. *)
Fixpoint existing_loop (existingAudits : slice.t entry)
    (enabledAudits : list (string * option Audit)) : result (slice.t entry) :=
  match enabledAudits with
  | [] => Returned existingAudits
  | (_, None) :: _ => Panicked "invalid memory address or nil pointer dereference"
  | (_, Some audit) :: rest =>
      existing_loop
        (slice.append existingAudits
           {| Path := Audit_Path audit;
              Type_ := Audit_Type audit;
              Description := Audit_Description audit;
              Options := Audit_Options audit |})
        rest
  end.

(** "Build a list of all the existing entries." *)
Definition existing (enabledAudits : option (gmap string (option Audit)))
  : result (slice.t entry) :=
  match enabledAudits with
  | Some m => existing_loop slice.make (map_range m)
  | None => Returned slice.make
  end.

(** The two branches of [Apply] after the diff. *)
Definition report (toBeWritten toBeDeleted : list vault.Item) : M Vault unit :=
  for_each toBeWritten
    (fun w => logrus.Infof written_format [vault.underlying w]) ;;
  for_each toBeDeleted
    (fun d => logrus.Infof deleted_format [vault.underlying d]).

Definition mutate (toBeWritten toBeDeleted : list vault.Item) : M Vault unit :=
  for_each toBeWritten
    (fun e => x ← lift (assert_entry (vault.underlying e)); enable x) ;;
  for_each toBeDeleted
    (fun e => x ← lift (assert_entry (vault.underlying e)); disable x).

(** [config.Apply]. *)
Definition Apply (entriesBytes : list Byte.byte) (dryRun : bool) : M Vault unit :=
  match Unmarshal entriesBytes with
  | (entries, err) =>
      match err with
      | Some e =>
          logrus.Fatal [("error", e)] "failed to decode Audit Devices configuration"
      | None => mret tt
      end ;;
      '(enabledAudits, err) ← Sys_ListAudit;
      match err with
      | Some e =>
          logrus.Fatal [("error", e)]
            "failed to list Audit Devices from Vault instance"
      | None => mret tt
      end ;;
      existingAudits ← lift (existing enabledAudits);
      match vault.DiffItems (slice.elems (asItems entries))
                            (slice.elems (asItems existingAudits)) with
      | (toBeWritten, toBeDeleted) =>
          if dryRun then report toBeWritten toBeDeleted
          else mutate toBeWritten toBeDeleted
      end
  end.

(** The value [config{}] as a [toplevel.Configuration]. *)
Definition config : toplevel.Configuration.t Vault :=
  {| toplevel.Configuration.Apply := Apply |}.

(** [init]. *)
Definition init (configs : gmap string (toplevel.Configuration.t Vault))
  : result (gmap string (toplevel.Configuration.t Vault)) :=
  toplevel.RegisterConfiguration configs "vault_audit_backends" (Some config).
End audit.

(** The events by which a run is read: the line a dry run logs for an
    item, and the remote call [enable] and [disable] make for an entry. *)
Definition written_report (w : vault.Item) : event :=
  Logf InfoLevel written_format [vault.underlying w].

Definition deleted_report (d : vault.Item) : event :=
  Logf InfoLevel deleted_format [vault.underlying d].

Definition enable_call (e : entry) : call :=
  CallEnableAuditWithOptions (Path e)
    {| EnableAudit_Type := Type_ e;
       EnableAudit_Description := Description e;
       EnableAudit_Options := Options e;
       EnableAudit_Local := false |}.

Definition disable_call (e : entry) : call := CallDisableAudit (Path e).

End audit.

(** ** A reference library and an in-memory service, used by the examples *)

Module testing.

Definition lower (c : Ascii.ascii) : Ascii.ascii :=
  let n := Ascii.nat_of_ascii c in
  if (65 <=? n)%nat && (n <=? 90)%nat then Ascii.ascii_of_nat (n + 32) else c.

(** [strings.ToLower] on ASCII text. *)
Fixpoint lower_string (s : string) : string :=
  match s with
  | EmptyString => EmptyString
  | String c rest => String (lower c) (lower_string rest)
  end.

(** A decoder for the examples: one device of type [file] for each byte,
    at the path that byte spells; the byte 0 is a syntax error. *)
Definition device (b : Byte.byte) : entry :=
  {| Path := String (Ascii.ascii_of_byte b) "";
     Type_ := "file";
     Description := "";
     Options := None |}.

Definition decode (bs : list Byte.byte) : slice.t entry * option error :=
  if existsb (Byte.eqb Byte.x00) bs then (None, Some "yaml: did not find expected node")
  else
    match bs with
    | [] => (None, None)
    | _ => (Some (map device bs), None)
    end.

Definition stringify (i : any) : string :=
  match i with
  | of_string s => s
  | of_bool true => "true"
  | of_bool false => "false"
  | _ => ""
  end.

Definition library : Library :=
  {| ToLower := lower_string;
     Unmarshal := decode;
     map_range := map_to_list;
     EqualPathNames := String.eqb;
     OptionsEqual := fun a b =>
       bool_decide (map_to_list (stringify <$> a) = map_to_list (stringify <$> b)) |}.

(** The service keeps the enabled devices by path. It lists a nil map when
    there are none, refuses to enable a path twice and to disable a path
    that is not enabled. *)
Definition memory : Sys (list Audit) :=
  {| ListAudit := fun v =>
       match v with
       | [] => ((None, None), v)
       | _ => ((Some (list_to_map (map (fun a => (Audit_Path a, Some a)) v)), None), v)
       end;
     EnableAuditWithOptions := fun path options v =>
       if existsb (fun a => String.eqb (Audit_Path a) path) v
       then (Some "path already in use", v)
       else (None,
             v ++ [{| Audit_Type := EnableAudit_Type options;
                      Audit_Description := EnableAudit_Description options;
                      Audit_Options := EnableAudit_Options options;
                      Audit_Local := EnableAudit_Local options;
                      Audit_Path := path |}]);
     DisableAudit := fun path v =>
       if existsb (fun a => String.eqb (Audit_Path a) path) v
       then (None, List.filter (fun a => negb (String.eqb (Audit_Path a) path)) v)
       else (Some "no audit device at this path", v) |}.

(** Two items of one key that differ in their type, and a third item. *)
Definition file_k : vault.Item :=
  audit.Item_of (L := library)
    {| Path := "k"; Type_ := "file"; Description := ""; Options := None |}.

Definition syslog_k : vault.Item :=
  audit.Item_of (L := library)
    {| Path := "k"; Type_ := "syslog"; Description := ""; Options := None |}.

Definition file_j : vault.Item :=
  audit.Item_of (L := library)
    {| Path := "j"; Type_ := "file"; Description := ""; Options := Some ∅ |}.

(** A device as the service lists it. *)
Definition listed (path : string) : Audit :=
  {| Audit_Type := "file";
     Audit_Description := "";
     Audit_Options := None;
     Audit_Local := false;
     Audit_Path := path |}.

(** A handler that only logs the arguments it is applied to. *)
Definition recorder : toplevel.Configuration.t (list Audit) :=
  {| toplevel.Configuration.Apply := fun cfg dryRun =>
       logrus.Infof "applied"
         [of_int (Z.of_nat (length cfg)); of_bool dryRun] |}.

End testing.

(** ** Reading registries and runs *)

Section readings.
Context {Vault : Type} {S : Sys Vault} {L : Library}.

(** The registries the process can hold: the empty one, and what a
    returning [RegisterConfiguration] makes of one it can hold. *)
Inductive built : gmap string (toplevel.Configuration.t Vault) -> Prop :=
| built_empty : built ∅
| built_step configs name c configs' :
    built configs ->
    toplevel.RegisterConfiguration configs name c = Returned configs' ->
    built configs'.

(** The answer of the service to one call, and the state it leaves. *)
Definition apply_call (c : call) (v : Vault) : option error * Vault :=
  match c with
  | CallListAudit =>
      match ListAudit v with
      | (r, v1) => (snd r, v1)
      end
  | CallEnableAuditWithOptions path options => EnableAuditWithOptions path options v
  | CallDisableAudit path => DisableAudit path v
  end.

(** The calls made one after the other until one fails: the calls made (a
    failed one is the last), the state left, and whether none failed. *)
Fixpoint attempt (cs : list call) (v : Vault) : list call * Vault * bool :=
  match cs with
  | [] => ([], v, true)
  | c :: rest =>
      match apply_call c v with
      | (None, v1) =>
          match attempt rest v1 with
          | (made, v2, ok) => (c :: made, v2, ok)
          end
      | (Some _, v1) => ([c], v1, false)
      end
  end.
End readings.

(** The entry [Apply] builds from a listed device, field for field. *)
Definition entry_of_audit (a : Audit) : entry :=
  {| Path := Audit_Path a;
     Type_ := Audit_Type a;
     Description := Audit_Description a;
     Options := Audit_Options a |}.

(** The library of another run of the process: the same functions, and
    the order [range] in which that run visits a map. Go fixes no order,
    so two runs may visit one map in two orders. *)
Definition with_range (L : Library)
    (range : gmap string (option Audit) -> list (string * option Audit)) : Library :=
  {| ToLower := @ToLower L;
     Unmarshal := @Unmarshal L;
     map_range := range;
     EqualPathNames := @EqualPathNames L;
     OptionsEqual := @OptionsEqual L |}.

(** The call a line of a dry run announces. *)
Definition previewed (e : event) : option call :=
  match e with
  | Logf InfoLevel format [of_entry x] =>
      if String.eqb format audit.written_format then Some (audit.enable_call x)
      else if String.eqb format audit.deleted_format then Some (audit.disable_call x)
      else None
  | _ => None
  end.

(** * Properties *)

(** ** The diff *)

Section diff_facts.
Import vault.

Lemma same_key_true (a b : Item) : same_key a b = true <-> Key a = Key b.
Proof. unfold same_key. apply String.eqb_eq. Qed.

Lemma same_key_refl (a : Item) : same_key a a = true.
Proof. apply same_key_true. reflexivity. Qed.

Lemma filter_none {A : Type} (f : A -> bool) (l : list A) :
  (forall x, In x l -> f x = false) -> List.filter f l = [].
Proof.
  induction l as [|a l IH]; intros Hf; simpl; [reflexivity|].
  rewrite (Hf a (or_introl eq_refl)). apply IH.
  intros x Hx. apply Hf. right. exact Hx.
Qed.

Lemma filter_all {A : Type} (f : A -> bool) (l : list A) :
  (forall x, In x l -> f x = true) -> List.filter f l = l.
Proof.
  induction l as [|a l IH]; intros Hf; simpl; [reflexivity|].
  rewrite (Hf a (or_introl eq_refl)). f_equal. apply IH.
  intros x Hx. apply Hf. right. exact Hx.
Qed.

(** With unique keys, an item of the list is the one its key finds. *)
Lemma find_by_key (l : list Item) (o d : Item) :
  List.NoDup (map Key l) -> In o l -> Key o = Key d ->
  find (fun x => same_key x d) l = Some o.
Proof.
  induction l as [|a l IH]; intros Hnd Hin Hk; [destruct Hin|].
  simpl in Hnd. apply List.NoDup_cons_iff in Hnd as [Hnotin Hnd].
  simpl. destruct (same_key a d) eqn:Ea.
  - destruct Hin as [->|Hin]; [reflexivity|].
    exfalso. apply Hnotin. apply same_key_true in Ea.
    rewrite Ea, <- Hk. apply List.in_map. exact Hin.
  - destruct Hin as [->|Hin].
    + apply same_key_true in Hk. congruence.
    + apply IH; assumption.
Qed.

(** With unique keys, two items of the list with one key are one item. *)
Lemma key_inj (l : list Item) (a b : Item) :
  List.NoDup (map Key l) -> In a l -> In b l -> Key a = Key b -> a = b.
Proof.
  intros Hnd Ha Hb Hk.
  pose proof (find_by_key l a b Hnd Ha Hk) as H1.
  pose proof (find_by_key l b b Hnd Hb eq_refl) as H2.
  congruence.
Qed.

Lemma DiffItems_nil_r (desired : list Item) : DiffItems desired [] = (desired, []).
Proof.
  unfold DiffItems. simpl. f_equal. apply filter_all. reflexivity.
Qed.

Lemma DiffItems_nil_l (observed : list Item) : DiffItems [] observed = ([], observed).
Proof.
  unfold DiffItems. simpl. f_equal. apply filter_all. reflexivity.
Qed.

End diff_facts.

(** C2. Drift: when the keys of [desired] are unique and so are those of
    [observed], a desired item [d] and an observed item [o] with one key for
    which [d.Equals(o)] is false are both kept: [d] is in [toWrite] and [o] in
    [toDelete]. *)
Theorem DiffItems_drift (desired observed : list vault.Item) (d o : vault.Item) :
  List.NoDup (map vault.Key desired) ->
  List.NoDup (map vault.Key observed) ->
  In d desired -> In o observed ->
  vault.Key d = vault.Key o ->
  vault.equals d o = false ->
  In d (fst (vault.DiffItems desired observed))
  /\ In o (snd (vault.DiffItems desired observed)).
Proof.
  intros Hd Ho Hind Hino Hk He. unfold vault.DiffItems. simpl. split.
  - apply List.filter_In. split; [exact Hind|].
    unfold vault.to_write.
    rewrite (find_by_key observed o d Ho Hino (eq_sym Hk)).
    rewrite He. reflexivity.
  - apply List.filter_In. split; [exact Hino|].
    unfold vault.to_delete. apply negb_true_iff.
    destruct (existsb _ desired) eqn:Ex; [|reflexivity].
    apply List.existsb_exists in Ex as (d' & Hd' & Hm).
    apply andb_true_iff in Hm as [Hk' He'].
    apply same_key_true in Hk'.
    assert (d' = d) as -> by (apply (key_inj desired); congruence).
    congruence.
Qed.

(** C3. Idempotence: for a sequence [X] with unique keys whose items equal
    themselves under [Equals], [DiffItems(X, X)] has nothing to write and
    nothing to delete. *)
Theorem DiffItems_converged (X : list vault.Item) :
  List.NoDup (map vault.Key X) ->
  (forall x, In x X -> vault.equals x x = true) ->
  vault.DiffItems X X = ([], []).
Proof.
  intros Hnd Hrefl. unfold vault.DiffItems. f_equal.
  - apply filter_none. intros d Hd. unfold vault.to_write.
    rewrite (find_by_key X d d Hnd Hd eq_refl).
    rewrite (Hrefl d Hd). reflexivity.
  - apply filter_none. intros o Ho. unfold vault.to_delete.
    apply negb_false_iff. apply List.existsb_exists. exists o.
    split; [exact Ho|].
    rewrite same_key_refl, (Hrefl o Ho). reflexivity.
Qed.

(** C6. Pure addition and pure removal: against an empty [observed] every
    desired item is written, in order, and nothing is deleted; against an
    empty [desired] every observed item is deleted, in order, and nothing is
    written. Neither needs the keys to be distinct. *)
Theorem DiffItems_one_side_empty (items : list vault.Item) :
  vault.DiffItems items [] = (items, [])
  /\ vault.DiffItems [] items = ([], items).
Proof.
  split; [apply DiffItems_nil_r | apply DiffItems_nil_l].
Qed.

(** ** The registry *)

Section registry_facts.
Context {Vault : Type} {L : Library}.
Implicit Types (configs : gmap string (toplevel.Configuration.t Vault)).
Implicit Types (c : option (toplevel.Configuration.t Vault)).
Implicit Types (h : toplevel.Configuration.t Vault).

Lemma eqb_empty (name : string) : String.eqb name "" = true <-> name = "".
Proof. apply String.eqb_eq. Qed.

Lemma Register_stores configs name h :
  name <> "" -> configs !! ToLower name = None ->
  toplevel.RegisterConfiguration configs name (Some h)
  = Returned (<[ToLower name := h]> configs).
Proof.
  intros Hne Hfree. unfold toplevel.RegisterConfiguration.
  destruct (String.eqb name "") eqn:E.
  - apply eqb_empty in E. contradiction.
  - rewrite Hfree. reflexivity.
Qed.

Lemma Register_returned configs name c configs' :
  toplevel.RegisterConfiguration configs name c = Returned configs' ->
  name <> "" /\ configs !! ToLower name = None
  /\ exists h, c = Some h /\ configs' = <[ToLower name := h]> configs.
Proof.
  unfold toplevel.RegisterConfiguration.
  destruct (String.eqb name "") eqn:E; [discriminate|].
  destruct c as [h|]; [|discriminate].
  destruct (configs !! ToLower name) eqn:Lk; [discriminate|].
  intros [= <-]. split; [|split; [reflexivity|exists h; split; reflexivity]].
  intros ->. discriminate.
Qed.

Lemma Register_never_exits configs name c code :
  toplevel.RegisterConfiguration configs name c <> Exited code.
Proof.
  unfold toplevel.RegisterConfiguration.
  destruct (String.eqb name ""); [discriminate|].
  destruct c; [|discriminate].
  destruct (configs !! ToLower name); discriminate.
Qed.

Lemma Apply_found configs name h cfg dryRun :
  configs !! name = Some h ->
  toplevel.Apply configs name cfg dryRun = toplevel.Configuration.Apply h cfg dryRun.
Proof. intros Lk. unfold toplevel.Apply. rewrite Lk. reflexivity. Qed.

Lemma Apply_missing configs name cfg dryRun v :
  configs !! name = None ->
  toplevel.Apply configs name cfg dryRun v = (Exited 1, v, [toplevel.not_found name]).
Proof. intros Lk. unfold toplevel.Apply. rewrite Lk. reflexivity. Qed.

(** X1. What the code does guarantee: the lower-cased name dispatches. *)
Lemma Apply_lower_after_Register configs configs' name h cfg dryRun :
  toplevel.RegisterConfiguration configs name (Some h) = Returned configs' ->
  toplevel.Apply configs' (ToLower name) cfg dryRun
  = toplevel.Configuration.Apply h cfg dryRun.
Proof.
  intros R. apply Register_returned in R as (_ & _ & h' & [= <-] & ->).
  apply Apply_found. apply lookup_insert_eq.
Qed.

(** A name whose spelling is not already lower case is not found under
    its own spelling. *)
Lemma Apply_own_name_after_Register configs' name h cfg dryRun v :
  ToLower name <> name ->
  toplevel.RegisterConfiguration ∅ name (Some h) = Returned configs' ->
  toplevel.Apply configs' name cfg dryRun v = (Exited 1, v, [toplevel.not_found name]).
Proof.
  intros Hl R. apply Register_returned in R as (_ & _ & h' & [= <-] & ->).
  apply Apply_missing. rewrite lookup_insert_ne by exact Hl. apply lookup_empty.
Qed.
End registry_facts.

(** C1. The registry stores under the lower-cased name but looks up the
    name as it is given: after ["A"] has been registered in an empty
    registry, [Apply("A", ...)] does not find the handler; it logs the fatal
    error and leaves the process without calling it. *)
Theorem Apply_is_case_sensitive
    (Vault : Type) (h : toplevel.Configuration.t Vault)
    (cfg : list Byte.byte) (dryRun : bool) (v : Vault) :
  exists configs,
    @toplevel.RegisterConfiguration Vault testing.library ∅ "A" (Some h)
    = Returned configs
    /\ configs !! "a" = Some h
    /\ toplevel.Apply configs "A" cfg dryRun v = (Exited 1, v, [toplevel.not_found "A"]).
Proof.
  exists (<["a" := h]> ∅). split; [|split].
  - apply (Register_stores (L := testing.library) ∅ "A" h); [discriminate|].
    apply lookup_empty.
  - apply lookup_insert_eq.
  - apply Apply_missing. rewrite lookup_insert_ne by discriminate.
    apply lookup_empty.
Qed.

(** C4. [RegisterConfiguration] panics exactly when the name is empty, the
    handler is nil, or the lower-cased name has an entry already; it never
    leaves by another way, and otherwise it returns the registry with the
    handler stored under the lower-cased name. *)
Theorem RegisterConfiguration_panics_iff
    (Vault : Type) (L : Library)
    (configs : gmap string (toplevel.Configuration.t Vault))
    (name : string) (c : option (toplevel.Configuration.t Vault)) :
  ((exists msg, toplevel.RegisterConfiguration configs name c = Panicked msg)
   <-> (name = "" \/ c = None \/ is_Some (configs !! ToLower name)))
  /\ (forall h, name <> "" -> c = Some h -> configs !! ToLower name = None ->
        toplevel.RegisterConfiguration configs name c
        = Returned (<[ToLower name := h]> configs)).
Proof.
  split; [split|].
  - intros [msg P].
    destruct (toplevel.RegisterConfiguration configs name c) as [configs'| |]
      eqn:R; try discriminate.
    clear P. unfold toplevel.RegisterConfiguration in R.
    destruct (String.eqb name "") eqn:E; [left; apply eqb_empty; exact E|].
    destruct c as [h|]; [|right; left; reflexivity].
    destruct (configs !! ToLower name) eqn:Lk; [|discriminate].
    right; right. eexists; reflexivity.
  - intros Hc.
    destruct (toplevel.RegisterConfiguration configs name c) as [configs'|code|msg]
      eqn:R.
    + apply Register_returned in R as (Hne & Hfree & h & -> & _).
      destruct Hc as [->|[?|[x Hx]]]; [contradiction|discriminate|congruence].
    + exfalso. exact (Register_never_exits _ _ _ _ R).
    + exists msg. reflexivity.
  - intros h Hne -> Hfree. apply Register_stores; assumption.
Qed.

(** [Apply] by the keys of the registry: for a name that is not a key it
    logs the fatal error with the name as it was requested and exits with
    status 1, the remote service untouched; for a name that is a key it is
    the one call of the stored handler's [Apply] on the same bytes and the
    same flag. The keys are the lower-cased names, not the registered ones. *)
Theorem Apply_is_pure_dispatch
    (Vault : Type) (configs : gmap string (toplevel.Configuration.t Vault))
    (name : string) (cfg : list Byte.byte) (dryRun : bool) :
  match configs !! name with
  | None =>
      forall v, toplevel.Apply configs name cfg dryRun v
                = (Exited 1, v, [toplevel.not_found name])
  | Some h =>
      toplevel.Apply configs name cfg dryRun
      = toplevel.Configuration.Apply h cfg dryRun
  end.
Proof.
  destruct (configs !! name) as [h|] eqn:Lk.
  - apply Apply_found. exact Lk.
  - intros v. apply Apply_missing. exact Lk.
Qed.

(** C5. [Apply] does not call the handler of a registered name once when
    that name has an upper-case letter: after the logging handler has been
    registered as ["A"], [Apply("A", ...)] ends in the fatal error for a
    missing name and its trace has no line of the handler, although one
    call of the handler on the same bytes and flag leaves exactly one. *)
Theorem Apply_leaves_registered_handler_uncalled
    (cfg : list Byte.byte) (dryRun : bool) (v : list Audit) :
  exists configs,
    toplevel.RegisterConfiguration (L := testing.library) ∅ "A"
      (Some testing.recorder)
    = Returned configs
    /\ toplevel.Apply configs "A" cfg dryRun v
       = (Exited 1, v, [toplevel.not_found "A"])
    /\ toplevel.Configuration.Apply testing.recorder cfg dryRun v
       = (Returned tt, v,
          [Logf InfoLevel "applied"
             [of_int (Z.of_nat (length cfg)); of_bool dryRun]]).
Proof.
  exists (<["a" := testing.recorder]> ∅). split; [|split].
  - apply (Register_stores (L := testing.library)); [discriminate|].
    apply lookup_empty.
  - apply Apply_missing. rewrite lookup_insert_ne by discriminate.
    apply lookup_empty.
  - reflexivity.
Qed.

(** ** The audit handler *)

Section run_facts.
Context {Vault : Type}.

Lemma run_bind {A B : Type} (m : M Vault A) (f : A -> M Vault B) (v : Vault) :
  (m ≫= f) v
  = match m v with
    | (Returned a, v1, t1) =>
        match f a v1 with
        | (r, v2, t2) => (r, v2, t1 ++ t2)
        end
    | (Exited code, v1, t1) => (Exited code, v1, t1)
    | (Panicked p, v1, t1) => (Panicked p, v1, t1)
    end.
Proof. reflexivity. Qed.

Lemma bind_ret_l {A B : Type} (a : A) (f : A -> M Vault B) (v : Vault) :
  (mret a ≫= f) v = f a v.
Proof.
  rewrite run_bind. unfold mret, M_ret.
  destruct (f a v) as [[r v2] t2]. reflexivity.
Qed.

Lemma run_bind_returned {A B : Type} (m : M Vault A) (f : A -> M Vault B)
    (v : Vault) (a : A) (v1 : Vault) (t1 : list event) :
  m v = (Returned a, v1, t1) ->
  (m ≫= f) v = match f a v1 with (r, v2, t2) => (r, v2, t1 ++ t2) end.
Proof. intros Hm. rewrite run_bind, Hm. reflexivity. Qed.

Lemma mutations_app (t1 t2 : list event) :
  mutations (t1 ++ t2) = mutations t1 ++ mutations t2.
Proof. apply omap_app. Qed.

(** A loop whose body only logs returns, leaves the service as it was,
    and logs one line for each element, in order. *)
Lemma for_each_log {A : Type} (line : A -> event) (xs : list A) (v : Vault) :
  for_each xs (fun x => emit (line x)) v = (Returned tt, v, map line xs).
Proof.
  induction xs as [|x xs IH]; [reflexivity|].
  simpl. rewrite run_bind. simpl. rewrite IH. reflexivity.
Qed.

Lemma mutations_reports (ws ds : list vault.Item) :
  mutations (map audit.written_report ws ++ map audit.deleted_report ds) = [].
Proof.
  rewrite mutations_app.
  assert (forall (f : vault.Item -> event) l,
             (forall x, mutation (f x) = None) -> mutations (map f l) = []) as Hn.
  { intros f l Hf. induction l as [|x l IH]; [reflexivity|].
    unfold mutations in *. simpl. rewrite Hf. exact IH. }
  rewrite !Hn by reflexivity. reflexivity.
Qed.
End run_facts.

Section audit_facts.
Context {Vault : Type} {S : Sys Vault} {L : Library}.

Lemma asItems_elems (xs : slice.t entry) :
  audit.asItems xs = Some (map audit.Item_of (slice.elems xs)).
Proof.
  unfold audit.asItems, slice.make.
  assert (forall l acc,
             foldl (fun items x => slice.append items (audit.Item_of x)) (Some acc) l
             = Some (acc ++ map audit.Item_of l)) as Hf.
  { induction l as [|x l IH]; intros acc; simpl.
    - rewrite app_nil_r. reflexivity.
    - unfold slice.append at 2. simpl. rewrite IH, <- app_assoc. reflexivity. }
  apply (Hf _ []).
Qed.

Lemma filter_Items (f : vault.Item -> bool) (es : list entry) :
  List.filter f (map audit.Item_of es)
  = map audit.Item_of (List.filter (fun e => f (audit.Item_of e)) es).
Proof.
  induction es as [|e es IH]; [reflexivity|].
  simpl. destruct (f (audit.Item_of e)); simpl; rewrite IH; reflexivity.
Qed.

(** The items of a diff of entries are entries. *)
Lemma DiffItems_entries (desired observed : list entry) :
  exists written deleted : list entry,
    vault.DiffItems (map audit.Item_of desired) (map audit.Item_of observed)
    = (map audit.Item_of written, map audit.Item_of deleted).
Proof.
  unfold vault.DiffItems. rewrite !filter_Items. eexists _, _. reflexivity.
Qed.

Lemma report_run (ws ds : list vault.Item) (v : Vault) :
  audit.report ws ds v
  = (Returned tt, v, map audit.written_report ws ++ map audit.deleted_report ds).
Proof.
  unfold audit.report, logrus.Infof. rewrite run_bind.
  rewrite (for_each_log audit.written_report).
  rewrite (for_each_log audit.deleted_report). reflexivity.
Qed.
End audit_facts.

Section mutate_facts.
Context {Vault : Type} {S : Sys Vault} {L : Library}.

Lemma enable_run (e : entry) (v : Vault) :
  audit.enable e v
  = match EnableAuditWithOptions (Path e)
            {| EnableAudit_Type := Type_ e;
               EnableAudit_Description := Description e;
               EnableAudit_Options := Options e;
               EnableAudit_Local := false |} v with
    | (None, v1) =>
        (Returned tt, v1,
         [Remote (audit.enable_call e);
          Log InfoLevel [("path", Path e)] "audit successfully enabled"])
    | (Some _, v1) =>
        (Exited 1, v1,
         [Remote (audit.enable_call e);
          Log FatalLevel [("path", Path e)] "failed to enable audit device"])
    end.
Proof.
  unfold audit.enable. rewrite run_bind. unfold Sys_EnableAuditWithOptions.
  destruct (EnableAuditWithOptions _ _ v) as [[err|] v1]; reflexivity.
Qed.

Lemma disable_run (e : entry) (v : Vault) :
  audit.disable e v
  = match DisableAudit (Path e) v with
    | (None, v1) =>
        (Returned tt, v1,
         [Remote (audit.disable_call e);
          Log InfoLevel [("path", Path e)] "audit successfully disabled"])
    | (Some _, v1) =>
        (Exited 1, v1,
         [Remote (audit.disable_call e);
          Log FatalLevel [("path", Path e)] "failed to disable audit"])
    end.
Proof.
  unfold audit.disable. rewrite run_bind. unfold Sys_DisableAudit.
  destruct (DisableAudit _ v) as [[err|] v1]; reflexivity.
Qed.

(** A loop of remote calls over entries: it returns after all the calls,
    or exits after some first ones; the type assertion never panics. *)
Lemma call_loop (act : entry -> M Vault unit) (c : entry -> call)
    (es : list entry) :
  (forall e v,
      (exists v1 t, act e v = (Returned tt, v1, t) /\ mutations t = [c e])
      \/ (exists code v1 t, act e v = (Exited code, v1, t) /\ mutations t = [c e])) ->
  forall v,
    match
      for_each (map audit.Item_of es)
        (fun i => x ← lift (assert_entry (vault.underlying i)); act x) v
    with
    | (Returned _, _, t) => mutations t = map c es
    | (Exited _, _, t) => exists rest, map c es = mutations t ++ rest
    | (Panicked _, _, _) => False
    end.
Proof.
  intros Hact. induction es as [|e es IH]; intros v; [reflexivity|].
  simpl for_each. rewrite run_bind. rewrite run_bind. simpl.
  destruct (Hact e v) as [(v1 & t & -> & Ht)|(code & v1 & t & -> & Ht)].
  - specialize (IH v1).
    destruct (for_each _ _ v1) as [[[[]|code|p] v2] t2]; simpl.
    + rewrite mutations_app, Ht, IH. reflexivity.
    + destruct IH as [rest ->]. exists rest.
      rewrite mutations_app, Ht. reflexivity.
    + exact IH.
  - exists (map c es). rewrite Ht. reflexivity.
Qed.

Lemma enable_act (e : entry) (v : Vault) :
  (exists v1 t, audit.enable e v = (Returned tt, v1, t)
                /\ mutations t = [audit.enable_call e])
  \/ (exists code v1 t, audit.enable e v = (Exited code, v1, t)
                        /\ mutations t = [audit.enable_call e]).
Proof.
  rewrite enable_run.
  destruct (EnableAuditWithOptions _ _ v) as [[err|] v1].
  - right. eexists _, _, _. split; reflexivity.
  - left. eexists _, _. split; reflexivity.
Qed.

Lemma disable_act (e : entry) (v : Vault) :
  (exists v1 t, audit.disable e v = (Returned tt, v1, t)
                /\ mutations t = [audit.disable_call e])
  \/ (exists code v1 t, audit.disable e v = (Exited code, v1, t)
                        /\ mutations t = [audit.disable_call e]).
Proof.
  rewrite disable_run.
  destruct (DisableAudit _ v) as [[err|] v1].
  - right. eexists _, _, _. split; reflexivity.
  - left. eexists _, _. split; reflexivity.
Qed.

(** The calls of [mutate]: the enabling calls of the written entries, in
    order, then the disabling calls of the deleted ones, in order; all of
    them when it returns, the first ones when it exits. *)
Lemma mutate_run (written deleted : list entry) (v : Vault) :
  match audit.mutate (map audit.Item_of written) (map audit.Item_of deleted) v with
  | (Returned _, _, t) =>
      mutations t
      = map audit.enable_call written ++ map audit.disable_call deleted
  | (Exited _, _, t) =>
      exists rest,
        map audit.enable_call written ++ map audit.disable_call deleted
        = mutations t ++ rest
  | (Panicked _, _, _) => False
  end.
Proof.
  unfold audit.mutate. rewrite run_bind.
  pose proof (call_loop audit.enable audit.enable_call written enable_act v) as Hw.
  destruct (for_each _ _ v) as [[[[]|code|p] v1] t1].
  - pose proof (call_loop audit.disable audit.disable_call deleted disable_act v1)
      as Hd.
    destruct (for_each _ _ v1) as [[[[]|code|p] v2] t2].
    + rewrite mutations_app, Hw, Hd. reflexivity.
    + destruct Hd as [rest Hd]. exists rest.
      rewrite mutations_app, Hw, Hd, app_assoc. reflexivity.
    + exact Hd.
  - destruct Hw as [rest Hw]. exists (rest ++ map audit.disable_call deleted).
    rewrite Hw, app_assoc. reflexivity.
  - exact Hw.
Qed.

(** [Apply] once the bytes are decoded and the devices listed. *)
Lemma Apply_run (entriesBytes : list Byte.byte) (dryRun : bool) (v v1 : Vault)
    (entries existingAudits : slice.t entry)
    (enabledAudits : option (gmap string (option Audit))) :
  Unmarshal entriesBytes = (entries, None) ->
  ListAudit v = ((enabledAudits, None), v1) ->
  audit.existing enabledAudits = Returned existingAudits ->
  audit.Apply entriesBytes dryRun v
  = match
      (if dryRun then audit.report else audit.mutate)
        (fst (vault.DiffItems (slice.elems (audit.asItems entries))
                              (slice.elems (audit.asItems existingAudits))))
        (snd (vault.DiffItems (slice.elems (audit.asItems entries))
                              (slice.elems (audit.asItems existingAudits)))) v1
    with
    | (r, v2, t) => (r, v2, Remote CallListAudit :: t)
    end.
Proof.
  intros Hu Hl He. unfold audit.Apply. rewrite Hu.
  rewrite bind_ret_l.
  rewrite (run_bind_returned _ _ v (enabledAudits, None) v1 [Remote CallListAudit])
    by (unfold Sys_ListAudit; rewrite Hl; reflexivity).
  cbv beta iota. rewrite bind_ret_l. rewrite He.
  change (lift (Returned existingAudits)) with (mret (M := M Vault) existingAudits).
  rewrite bind_ret_l.
  destruct (vault.DiffItems _ _) as [toBeWritten toBeDeleted]. cbn [fst snd].
  destruct dryRun;
    [destruct (audit.report _ _ v1) as [[r v2] t]
    |destruct (audit.mutate _ _ v1) as [[r v2] t]]; reflexivity.
Qed.
End mutate_facts.

Section abort_facts.
Context {Vault : Type} {S : Sys Vault} {L : Library}.

Lemma Apply_decode_error (entriesBytes : list Byte.byte) (dryRun : bool)
    (v : Vault) (entries : slice.t entry) (e : error) :
  Unmarshal entriesBytes = (entries, Some e) ->
  audit.Apply entriesBytes dryRun v
  = (Exited 1, v,
     [Log FatalLevel [("error", e)] "failed to decode Audit Devices configuration"]).
Proof. intros Hu. unfold audit.Apply. rewrite Hu. reflexivity. Qed.

Lemma Apply_list_error (entriesBytes : list Byte.byte) (dryRun : bool)
    (v v1 : Vault) (entries : slice.t entry)
    (enabledAudits : option (gmap string (option Audit))) (e : error) :
  Unmarshal entriesBytes = (entries, None) ->
  ListAudit v = ((enabledAudits, Some e), v1) ->
  audit.Apply entriesBytes dryRun v
  = (Exited 1, v1,
     [Remote CallListAudit;
      Log FatalLevel [("error", e)]
        "failed to list Audit Devices from Vault instance"]).
Proof.
  intros Hu Hl. unfold audit.Apply. rewrite Hu. rewrite bind_ret_l.
  rewrite (run_bind_returned _ _ v (enabledAudits, Some e) v1 [Remote CallListAudit])
    by (unfold Sys_ListAudit; rewrite Hl; reflexivity).
  reflexivity.
Qed.

Lemma existing_loop_result (kvs : list (string * option Audit)) (acc : slice.t entry) :
  (exists s, audit.existing_loop acc kvs = Returned s)
  \/ (exists p, audit.existing_loop acc kvs = Panicked p).
Proof.
  revert acc. induction kvs as [|[k [a|]] kvs IH]; intros acc; simpl.
  - left. eexists. reflexivity.
  - apply IH.
  - right. eexists. reflexivity.
Qed.

Lemma Apply_nil_pointer (entriesBytes : list Byte.byte) (dryRun : bool)
    (v v1 : Vault) (entries : slice.t entry)
    (enabledAudits : option (gmap string (option Audit))) (p : string) :
  Unmarshal entriesBytes = (entries, None) ->
  ListAudit v = ((enabledAudits, None), v1) ->
  audit.existing enabledAudits = Panicked p ->
  audit.Apply entriesBytes dryRun v = (Panicked p, v1, [Remote CallListAudit]).
Proof.
  intros Hu Hl He. unfold audit.Apply. rewrite Hu. rewrite bind_ret_l.
  rewrite (run_bind_returned _ _ v (enabledAudits, None) v1 [Remote CallListAudit])
    by (unfold Sys_ListAudit; rewrite Hl; reflexivity).
  cbv beta iota. rewrite bind_ret_l. rewrite He. reflexivity.
Qed.
End abort_facts.

(** C7. A dry run makes no call that changes the remote service: no enable
    and no disable is in its trace, whatever the bytes and the service are.
    When the bytes decode and the devices are listed, it returns after the
    listing with one line logged for each item to write, then one for each
    item to delete. *)
Theorem Apply_dry_run
    (Vault : Type) (S : Sys Vault) (L : Library)
    (entriesBytes : list Byte.byte) (v : Vault) :
  mutations (trace_of (audit.Apply entriesBytes true v)) = []
  /\ (forall entries enabledAudits v1 existingAudits,
        Unmarshal entriesBytes = (entries, None) ->
        ListAudit v = ((enabledAudits, None), v1) ->
        audit.existing enabledAudits = Returned existingAudits ->
        audit.Apply entriesBytes true v
        = (Returned tt, v1,
           Remote CallListAudit
           :: map audit.written_report
                (fst (vault.DiffItems (slice.elems (audit.asItems entries))
                                      (slice.elems (audit.asItems existingAudits))))
           ++ map audit.deleted_report
                (snd (vault.DiffItems (slice.elems (audit.asItems entries))
                                      (slice.elems (audit.asItems existingAudits)))))).
Proof.
  assert (forall entries enabledAudits v1 existingAudits,
        Unmarshal entriesBytes = (entries, None) ->
        ListAudit v = ((enabledAudits, None), v1) ->
        audit.existing enabledAudits = Returned existingAudits ->
        audit.Apply entriesBytes true v
        = (Returned tt, v1,
           Remote CallListAudit
           :: map audit.written_report
                (fst (vault.DiffItems (slice.elems (audit.asItems entries))
                                      (slice.elems (audit.asItems existingAudits))))
           ++ map audit.deleted_report
                (snd (vault.DiffItems (slice.elems (audit.asItems entries))
                                      (slice.elems (audit.asItems existingAudits))))))
    as Hreport.
  { intros entries enabledAudits v1 existingAudits Hu Hl He.
    rewrite (Apply_run _ true v v1 _ _ _ Hu Hl He). cbv iota.
    rewrite report_run. reflexivity. }
  split; [|exact Hreport].
  destruct (Unmarshal entriesBytes) as [entries [e|]] eqn:Hu.
  { rewrite (Apply_decode_error _ _ _ _ _ Hu). reflexivity. }
  destruct (ListAudit v) as [[enabledAudits [e|]] v1] eqn:Hl.
  { rewrite (Apply_list_error _ _ _ _ _ _ _ Hu Hl). reflexivity. }
  destruct (audit.existing enabledAudits) as [existingAudits|code|p] eqn:He.
  - rewrite (Hreport _ _ _ _ eq_refl eq_refl He). unfold trace_of. cbn [snd].
    apply mutations_reports.
  - exfalso. unfold audit.existing in He. destruct enabledAudits as [m|]; [|discriminate].
    destruct (existing_loop_result (map_range m) slice.make) as [[s Hs]|[p Hp]];
      congruence.
  - rewrite (Apply_nil_pointer _ _ _ _ _ _ _ Hu Hl He). reflexivity.
Qed.

(** C8. [Equals] on a value whose concrete type is not [entry] (the nil
    interface included) is [false]: the failed assertion yields [ok = false]
    and the function returns at once. *)
Theorem Equals_of_another_type (L : Library) (e : entry) (i : any) :
  concrete_type i <> Some T_entry -> audit.Equals e i = false.
Proof.
  intros Hty. unfold audit.Equals.
  destruct i; try reflexivity. exfalso. apply Hty. reflexivity.
Qed.

(** C9. A run that is not a dry run, once the bytes are decoded and the
    devices listed, makes the enabling calls of the items to write, in their
    order, and only then the disabling calls of the items to delete, in
    their order: the calls it has made are always the first ones of that
    sequence, and all of it when the run returns. *)
Theorem Apply_writes_before_deletes
    (Vault : Type) (S : Sys Vault) (L : Library)
    (entriesBytes : list Byte.byte) (v v1 : Vault)
    (entries existingAudits : slice.t entry)
    (enabledAudits : option (gmap string (option Audit))) :
  Unmarshal entriesBytes = (entries, None) ->
  ListAudit v = ((enabledAudits, None), v1) ->
  audit.existing enabledAudits = Returned existingAudits ->
  exists written deleted : list entry,
    vault.DiffItems (slice.elems (audit.asItems entries))
                    (slice.elems (audit.asItems existingAudits))
    = (map audit.Item_of written, map audit.Item_of deleted)
    /\ (exists rest,
           map audit.enable_call written ++ map audit.disable_call deleted
           = mutations (trace_of (audit.Apply entriesBytes false v)) ++ rest)
    /\ (result_of (audit.Apply entriesBytes false v) = Returned tt ->
        mutations (trace_of (audit.Apply entriesBytes false v))
        = map audit.enable_call written ++ map audit.disable_call deleted)
    /\ (forall p, result_of (audit.Apply entriesBytes false v) <> Panicked p).
Proof.
  intros Hu Hl He.
  rewrite (Apply_run _ false v v1 _ _ _ Hu Hl He). cbv iota.
  rewrite !asItems_elems. cbn [slice.elems].
  destruct (DiffItems_entries (slice.elems entries) (slice.elems existingAudits))
    as (written & deleted & ->).
  exists written, deleted. split; [reflexivity|]. cbn [fst snd].
  pose proof (mutate_run written deleted v1) as Hm.
  destruct (audit.mutate _ _ v1) as [[[[]|code|p] v2] t];
    unfold trace_of, result_of; cbn [fst snd].
  - split; [exists []; rewrite app_nil_r; symmetry; exact Hm|].
    split; [intros _; exact Hm|discriminate].
  - split; [exact Hm|]. split; discriminate.
  - destruct Hm.
Qed.

(** C10. A nil listing: when the devices are listed without error as a nil
    map, the observed entries are a non-nil empty slice and so are the
    observed items; the diff then writes every decoded entry, in order, and
    deletes nothing, and [Apply] is the listing followed by its branch on
    exactly these two sets. *)
Theorem Apply_nil_listing
    (Vault : Type) (S : Sys Vault) (L : Library)
    (entriesBytes : list Byte.byte) (dryRun : bool) (v v1 : Vault)
    (entries : slice.t entry) :
  Unmarshal entriesBytes = (entries, None) ->
  ListAudit v = ((None, None), v1) ->
  audit.existing None = Returned (Some [])
  /\ audit.asItems (Some []) = Some []
  /\ vault.DiffItems (slice.elems (audit.asItems entries))
                     (slice.elems (audit.asItems (Some [])))
     = (map audit.Item_of (slice.elems entries), [])
  /\ audit.Apply entriesBytes dryRun v
     = (Sys_ListAudit ;;
        (if dryRun then audit.report else audit.mutate)
          (map audit.Item_of (slice.elems entries)) []) v.
Proof.
  intros Hu Hl.
  assert (vault.DiffItems (slice.elems (audit.asItems entries))
                          (slice.elems (audit.asItems (Some [])))
          = (map audit.Item_of (slice.elems entries), [])) as Hd.
  { rewrite asItems_elems. cbn [slice.elems]. apply DiffItems_nil_r. }
  split; [reflexivity|]. split; [reflexivity|]. split; [exact Hd|].
  rewrite (Apply_run _ dryRun v v1 entries (Some []) None Hu Hl eq_refl).
  rewrite Hd. cbn [fst snd].
  rewrite (run_bind_returned _ _ v (None, None) v1 [Remote CallListAudit])
    by (unfold Sys_ListAudit; rewrite Hl; reflexivity).
  reflexivity.
Qed.

(** ** The statements at concrete inputs *)

(** Drift on the key [k]: the desired [file] device is written and the observed
    [syslog] device is deleted. *)
Lemma drift_at_k :
  In testing.file_k
     (fst (vault.DiffItems [testing.file_j; testing.file_k] [testing.syslog_k]))
  /\ In testing.syslog_k
        (snd (vault.DiffItems [testing.file_j; testing.file_k] [testing.syslog_k])).
Proof.
  apply DiffItems_drift.
  - apply List.NoDup_cons; [simpl; intros [E|[]]; discriminate E|].
    apply List.NoDup_cons; [simpl; tauto|apply List.NoDup_nil].
  - apply List.NoDup_cons; [simpl; tauto|apply List.NoDup_nil].
  - right. left. reflexivity.
  - left. reflexivity.
  - reflexivity.
  - vm_compute. reflexivity.
Defined.

(** Two devices against themselves: nothing to do. *)
Lemma converged_at_j_k :
  vault.DiffItems [testing.file_j; testing.file_k] [testing.file_j; testing.file_k]
  = ([], []).
Proof.
  apply DiffItems_converged.
  - apply List.NoDup_cons; [simpl; intros [E|[]]; discriminate E|].
    apply List.NoDup_cons; [simpl; tauto|apply List.NoDup_nil].
  - intros x [<-|[<-|[]]]; vm_compute; reflexivity.
Defined.

(** [Register("A", h)] followed by [Register("a", h2)] panics. *)
Lemma register_A_then_a :
  exists configs msg,
    toplevel.RegisterConfiguration (L := testing.library) ∅ "A" (Some testing.recorder)
    = Returned configs
    /\ toplevel.RegisterConfiguration (L := testing.library) configs "a"
         (Some testing.recorder)
       = Panicked msg.
Proof.
  exists (<["a" := testing.recorder]> ∅).
  destruct (proj1 (RegisterConfiguration_panics_iff (list Audit) testing.library
                     (<["a" := testing.recorder]> ∅) "a" (Some testing.recorder)))
    as [_ Hpanic].
  destruct Hpanic as [msg Hmsg].
  { right. right. exists testing.recorder. apply lookup_insert_eq. }
  exists msg. split; [|exact Hmsg].
  apply (proj2 (RegisterConfiguration_panics_iff (list Audit) testing.library
                  ∅ "A" (Some testing.recorder)));
    [discriminate|reflexivity|apply lookup_empty].
Defined.

(** The registered handler runs once, on the bytes and the flag given. *)
Lemma recorder_applied_once :
  toplevel.Apply {["rec" := testing.recorder]} "rec" [Byte.x61] true []
  = (Returned tt, [], [Logf InfoLevel "applied" [of_int 1; of_bool true]]).
Proof.
  pose proof (Apply_is_pure_dispatch (list Audit) {["rec" := testing.recorder]}
                "rec" [Byte.x61] true) as Hd.
  rewrite lookup_singleton_eq in Hd. rewrite Hd. reflexivity.
Defined.

(** A dry run against a service with the devices [a] and [c], for a
    configuration of [a] and [b]: [b] is reported to be written and [c] to be
    deleted, and the service is left as it was. *)
Lemma dry_run_of_a_b :
  audit.Apply (S := testing.memory) (L := testing.library)
    [Byte.x61; Byte.x62] true [testing.listed "a"; testing.listed "c"]
  = (Returned tt, [testing.listed "a"; testing.listed "c"],
     [Remote CallListAudit;
      Logf InfoLevel audit.written_format
        [of_entry {| Path := "b"; Type_ := "file"; Description := "";
                     Options := None |}];
      Logf InfoLevel audit.deleted_format
        [of_entry {| Path := "c"; Type_ := "file"; Description := "";
                     Options := None |}]]).
Proof.
  pose proof (proj2 (Apply_dry_run (list Audit) testing.memory testing.library
                       [Byte.x61; Byte.x62]
                       [testing.listed "a"; testing.listed "c"])) as Hr.
  rewrite (Hr _ _ _ _ eq_refl eq_refl eq_refl).
  vm_compute. reflexivity.
Defined.

(** After ["A"] is registered, the name ["a"] dispatches to the handler. *)
Lemma lower_case_name_dispatches :
  toplevel.Apply (<["a" := testing.recorder]> ∅)
    (ToLower (Library := testing.library) "A") [Byte.x61] false
  = toplevel.Configuration.Apply testing.recorder [Byte.x61] false.
Proof.
  apply (Apply_lower_after_Register (L := testing.library) ∅ _ "A").
  apply (Register_stores (L := testing.library)); [discriminate|apply lookup_empty].
Defined.

(** A string is not an entry. *)
Lemma string_is_no_entry :
  audit.Equals (L := testing.library)
    {| Path := "k"; Type_ := "file"; Description := ""; Options := None |}
    (of_string "k")
  = false.
Proof.
  apply Equals_of_another_type. discriminate.
Defined.

(** The same configuration applied: [b] is enabled, then [c] disabled. *)
Lemma b_enabled_then_c_disabled :
  exists written deleted : list entry,
    vault.DiffItems
      (slice.elems (audit.asItems (L := testing.library)
                      (Some [testing.device Byte.x61; testing.device Byte.x62])))
      (slice.elems (audit.asItems (L := testing.library)
                      (Some [testing.device Byte.x63; testing.device Byte.x61])))
    = (map (audit.Item_of (L := testing.library)) written,
       map (audit.Item_of (L := testing.library)) deleted)
    /\ (exists rest,
           map audit.enable_call written ++ map audit.disable_call deleted
           = mutations
               (trace_of
                  (audit.Apply (S := testing.memory) (L := testing.library)
                     [Byte.x61; Byte.x62] false
                     [testing.listed "a"; testing.listed "c"])) ++ rest)
    /\ (result_of
          (audit.Apply (S := testing.memory) (L := testing.library)
             [Byte.x61; Byte.x62] false [testing.listed "a"; testing.listed "c"])
        = Returned tt ->
        mutations
          (trace_of
             (audit.Apply (S := testing.memory) (L := testing.library)
                [Byte.x61; Byte.x62] false
                [testing.listed "a"; testing.listed "c"]))
        = map audit.enable_call written ++ map audit.disable_call deleted)
    /\ (forall p,
           result_of
             (audit.Apply (S := testing.memory) (L := testing.library)
                [Byte.x61; Byte.x62] false
                [testing.listed "a"; testing.listed "c"])
           <> Panicked p).
Proof.
  apply (Apply_writes_before_deletes (list Audit) testing.memory testing.library
           [Byte.x61; Byte.x62]
           [testing.listed "a"; testing.listed "c"]
           [testing.listed "a"; testing.listed "c"]
           (Some [testing.device Byte.x61; testing.device Byte.x62])
           (Some [testing.device Byte.x63; testing.device Byte.x61])
           (Some (list_to_map [("a", Some (testing.listed "a"));
                               ("c", Some (testing.listed "c"))]))).
  - reflexivity.
  - reflexivity.
  - vm_compute. reflexivity.
Defined.

(** Against a service that lists a nil map, [a] and [b] are both written. *)
Lemma nil_listing_of_a_b :
  audit.existing (L := testing.library) None = Returned (Some [])
  /\ audit.asItems (L := testing.library) (Some []) = Some []
  /\ vault.DiffItems
       (slice.elems (audit.asItems (L := testing.library)
                       (Some [testing.device Byte.x61; testing.device Byte.x62])))
       (slice.elems (audit.asItems (L := testing.library) (Some [])))
     = (map (audit.Item_of (L := testing.library))
          [testing.device Byte.x61; testing.device Byte.x62], [])
  /\ audit.Apply (S := testing.memory) (L := testing.library)
       [Byte.x61; Byte.x62] false []
     = (Sys_ListAudit (S := testing.memory) ;;
        audit.mutate (S := testing.memory)
          (map (audit.Item_of (L := testing.library))
             [testing.device Byte.x61; testing.device Byte.x62]) []) [].
Proof.
  apply (Apply_nil_listing (list Audit) testing.memory testing.library
           [Byte.x61; Byte.x62] false [] []
           (Some [testing.device Byte.x61; testing.device Byte.x62]));
    reflexivity.
Defined.

(** The scenario of the specification: [/audit1] is as desired and [/audit2]
    is not desired, so nothing is written and [/audit2] is deleted. *)
Example DiffItems_audit1_audit2 :
  vault.DiffItems
    (map (audit.Item_of (L := testing.library))
       [{| Path := "/audit1"; Type_ := "file"; Description := "";
           Options := Some {["path" := "/tmp/a"]} |}])
    (map (audit.Item_of (L := testing.library))
       [{| Path := "/audit1"; Type_ := "file"; Description := "";
           Options := Some {["path" := "/tmp/a"]} |};
        {| Path := "/audit2"; Type_ := "file"; Description := "";
           Options := Some ∅ |}])
  = ([],
     map (audit.Item_of (L := testing.library))
       [{| Path := "/audit2"; Type_ := "file"; Description := "";
           Options := Some ∅ |}]).
Proof. vm_compute. reflexivity. Qed.

(** The handler registers itself under a name that is lower case already,
    so [Apply] finds it under that name. *)
Example init_then_Apply (entriesBytes : list Byte.byte) (dryRun : bool) :
  exists configs,
    audit.init (S := testing.memory) (L := testing.library) ∅ = Returned configs
    /\ toplevel.Apply configs "vault_audit_backends" entriesBytes dryRun
       = audit.Apply (S := testing.memory) (L := testing.library) entriesBytes dryRun.
Proof.
  exists (<["vault_audit_backends" :=
             audit.config (S := testing.memory) (L := testing.library)]> ∅).
  split.
  - apply (Register_stores (L := testing.library)); [discriminate|apply lookup_empty].
  - rewrite (Apply_found _ _ (audit.config (S := testing.memory) (L := testing.library)));
      [reflexivity|apply lookup_insert_eq].
Qed.

(** * Further properties *)

(** ** The registry *)

Section registry_growth.
Context {Vault : Type} {L : Library}.
Implicit Types (configs : gmap string (toplevel.Configuration.t Vault)).
Implicit Types (c : option (toplevel.Configuration.t Vault)).

(** Every key of a registry the process can hold is the lower-casing of
    a name that is not empty. *)
Lemma built_keys configs (k : string) :
  built configs -> is_Some (configs !! k) -> exists n, n <> "" /\ k = ToLower n.
Proof.
  induction 1 as [|configs name c configs' Hb IH R]; intros [h Hk].
  - rewrite lookup_empty in Hk. discriminate.
  - apply Register_returned in R as (Hne & _ & h' & _ & ->).
    destruct (decide (ToLower name = k)) as [<-|Hd].
    + exists name. split; [exact Hne|reflexivity].
    + rewrite lookup_insert_ne in Hk by exact Hd. apply IH. exists h. exact Hk.
Qed.

(** X2. A registration that returns keeps every earlier entry: the handler
    of each earlier name is the same, [Apply] does for every other name
    what it did before, and there is exactly one more entry. *)
Theorem RegisterConfiguration_keeps_entries configs configs' (name : string) c :
  toplevel.RegisterConfiguration configs name c = Returned configs' ->
  (forall k h, configs !! k = Some h -> configs' !! k = Some h)
  /\ (forall k cfg dryRun,
         k <> ToLower name ->
         toplevel.Apply configs' k cfg dryRun = toplevel.Apply configs k cfg dryRun)
  /\ size configs' = Datatypes.S (size configs).
Proof.
  intros R. apply Register_returned in R as (_ & Hfree & h' & _ & ->).
  split; [|split].
  - intros k h Hk. rewrite lookup_insert_ne; [exact Hk|]. congruence.
  - intros k cfg dryRun Hne. unfold toplevel.Apply.
    rewrite lookup_insert_ne by congruence. reflexivity.
  - apply map_size_insert_None. exact Hfree.
Qed.

(** X3. After a registration that returns, registering any name with the
    same lower-casing panics, whatever the handler. *)
Theorem RegisterConfiguration_twice_panics configs configs' (name name' : string) c c' :
  toplevel.RegisterConfiguration configs name c = Returned configs' ->
  ToLower name' = ToLower name ->
  exists msg, toplevel.RegisterConfiguration configs' name' c' = Panicked msg.
Proof.
  intros R Hl. apply Register_returned in R as (_ & _ & h & _ & ->).
  unfold toplevel.RegisterConfiguration.
  destruct (String.eqb name' ""); [eexists; reflexivity|].
  destruct c' as [h'|]; [|eexists; reflexivity].
  rewrite Hl, lookup_insert_eq. eexists; reflexivity.
Qed.

(** X4. Two registrations that return one after the other also return in the
    other order, and leave the same registry. *)
Theorem RegisterConfiguration_commutes configs configs1 configs12
    (name1 name2 : string) c1 c2 :
  toplevel.RegisterConfiguration configs name1 c1 = Returned configs1 ->
  toplevel.RegisterConfiguration configs1 name2 c2 = Returned configs12 ->
  exists configs2,
    toplevel.RegisterConfiguration configs name2 c2 = Returned configs2
    /\ toplevel.RegisterConfiguration configs2 name1 c1 = Returned configs12.
Proof.
  intros R1 R2.
  apply Register_returned in R1 as (Hne1 & Hfree1 & h1 & -> & ->).
  apply Register_returned in R2 as (Hne2 & Hfree2 & h2 & -> & ->).
  assert (ToLower name1 <> ToLower name2) as Hd.
  { intros E. rewrite <- E, lookup_insert_eq in Hfree2. discriminate. }
  rewrite lookup_insert_ne in Hfree2 by exact Hd.
  exists (<[ToLower name2 := h2]> configs). split.
  - apply Register_stores; assumption.
  - rewrite (Register_stores _ name1 h1 Hne1).
    + f_equal. apply insert_insert_ne. congruence.
    + rewrite lookup_insert_ne by congruence. exact Hfree1.
Qed.

(** X5. Whatever has been registered, [Apply] does not find a name that is
    not the lower-casing of any name: it logs the fatal error and exits. *)
Theorem Apply_needs_lower_case_name configs (name : string)
    (cfg : list Byte.byte) (dryRun : bool) (v : Vault) :
  built configs ->
  (forall n, ToLower n <> name) ->
  toplevel.Apply configs name cfg dryRun v = (Exited 1, v, [toplevel.not_found name]).
Proof.
  intros Hb Hn. apply Apply_missing.
  destruct (configs !! name) as [h|] eqn:Hk; [|reflexivity].
  destruct (built_keys configs name Hb) as (n & _ & E); [eexists; exact Hk|].
  exfalso. apply (Hn n). symmetry. exact E.
Qed.
End registry_growth.

(** ** The audit handler *)

Section items_more.
Context {L : Library}.

(** X6. [asItems] never returns nil; it keeps the number and the order of the
    entries, the key of each item is the path of its entry, and the
    assertion [i.(entry)] on each item gives the entry back. *)
Theorem asItems_round_trip (xs : slice.t entry) :
  exists items,
    audit.asItems xs = Some items
    /\ length items = length (slice.elems xs)
    /\ map vault.Key items = map Path (slice.elems xs)
    /\ map (fun i => assert_entry (vault.underlying i)) items
       = map Returned (slice.elems xs).
Proof.
  exists (map audit.Item_of (slice.elems xs)).
  split; [apply asItems_elems|].
  split; [apply length_map|].
  split; rewrite List.map_map; apply List.map_ext; reflexivity.
Qed.

Lemma existing_loop_all (kvs : list (string * option Audit)) (audits : list Audit)
    (acc : list entry) :
  map snd kvs = map Some audits ->
  audit.existing_loop (Some acc) kvs
  = Returned (Some (acc ++ map entry_of_audit audits)).
Proof.
  revert audits acc. induction kvs as [|[k p] kvs IH]; intros audits acc E.
  - destruct audits; [|discriminate]. simpl. rewrite app_nil_r. reflexivity.
  - destruct audits as [|a audits]; [discriminate|].
    simpl in E. injection E as -> E. simpl.
    unfold slice.append. simpl. rewrite (IH audits _ E).
    rewrite <- app_assoc. reflexivity.
Qed.

Lemma existing_loop_nil_pointer (kvs : list (string * option Audit))
    (acc : slice.t entry) :
  In None (map snd kvs) -> exists p, audit.existing_loop acc kvs = Panicked p.
Proof.
  revert acc. induction kvs as [|[k [a|]] kvs IH]; intros acc Hin.
  - destruct Hin.
  - destruct Hin as [E|Hin]; [discriminate|]. simpl. apply IH. exact Hin.
  - eexists. reflexivity.
Qed.

(** X7. The observed entries are the listed devices, field for field, in the
    order the map is visited: the keys of the map and the field [Local]
    play no part. The loop panics exactly when the map holds a nil
    pointer. *)
Theorem existing_field_for_field (m : gmap string (option Audit)) :
  (forall audits,
      map snd (map_range m) = map Some audits ->
      audit.existing (Some m) = Returned (Some (map entry_of_audit audits)))
  /\ (In None (map snd (map_range m)) ->
      exists p, audit.existing (Some m) = Panicked p).
Proof.
  split.
  - intros audits E. unfold audit.existing, slice.make.
    rewrite (existing_loop_all _ audits [] E). reflexivity.
  - intros Hin. apply existing_loop_nil_pointer. exact Hin.
Qed.

(** X8. What [enable] sends for an entry, listed back by the service, is
    read as that entry again: in a listing of any number of devices, a
    device with the path, type, description and options that [enable] sent
    for [e] is read as [e] at its place, whatever its key in the map and
    whatever its field [Local]. *)
Theorem enable_then_list_round_trip (e : entry) (path : string)
    (options : EnableAuditOptions) (a : Audit)
    (m : gmap string (option Audit)) (before after : list Audit) :
  audit.enable_call e = CallEnableAuditWithOptions path options ->
  Audit_Path a = path ->
  Audit_Type a = EnableAudit_Type options ->
  Audit_Description a = EnableAudit_Description options ->
  Audit_Options a = EnableAudit_Options options ->
  map snd (map_range m) = map Some (before ++ a :: after) ->
  audit.existing (Some m)
  = Returned (Some (map entry_of_audit before ++ e :: map entry_of_audit after)).
Proof.
  intros Hc Hp Ht Hd Ho Hm.
  unfold audit.enable_call in Hc. injection Hc as <- <-.
  assert (entry_of_audit a = e) as <-.
  { destruct e, a. unfold entry_of_audit. simpl in *. congruence. }
  unfold audit.existing, slice.make.
  rewrite (existing_loop_all _ _ [] Hm). rewrite List.map_app. reflexivity.
Qed.

(** X9. [Equals] is as reflexive and as symmetric on entries as the two
    helpers of pkg/vault are. *)
Theorem Equals_reflexive_symmetric :
  (forall p, EqualPathNames p p = true) ->
  (forall o, OptionsEqual o o = true) ->
  (forall p q, EqualPathNames p q = EqualPathNames q p) ->
  (forall o o', OptionsEqual o o' = OptionsEqual o' o) ->
  forall a b : entry,
    audit.Equals a (of_entry a) = true
    /\ audit.Equals a (of_entry b) = audit.Equals b (of_entry a).
Proof.
  intros Pr Or Ps Os a b. unfold audit.Equals. simpl. split.
  - rewrite Pr, Or, !String.eqb_refl. reflexivity.
  - rewrite (Ps (Path a)), (Os (audit.ambiguousOptions a)).
    rewrite (String.eqb_sym (Type_ a)), (String.eqb_sym (Description a)).
    reflexivity.
Qed.

(** X10. [Equals] does not tell a nil map of options from an empty one, on
    either side. *)
Theorem Equals_nil_options (path type description : string) (x : entry) :
  let nil_options :=
    {| Path := path; Type_ := type; Description := description; Options := None |} in
  let no_options :=
    {| Path := path; Type_ := type; Description := description; Options := Some ∅ |} in
  (forall i, audit.Equals nil_options i = audit.Equals no_options i)
  /\ audit.Equals x (of_entry nil_options) = audit.Equals x (of_entry no_options).
Proof.
  intros nil_options no_options.
  assert (audit.ambiguousOptions nil_options = audit.ambiguousOptions no_options) as E.
  { unfold audit.ambiguousOptions. simpl. rewrite fmap_empty. reflexivity. }
  split.
  - intros i. unfold audit.Equals. destruct (assert_entry_ok i) as [entry0 ok].
    rewrite E. reflexivity.
  - unfold audit.Equals. simpl assert_entry_ok. cbv iota. rewrite E. reflexivity.
Qed.
End items_more.

Section runs_more.
Context {Vault : Type} {S : Sys Vault} {L : Library}.

Lemma attempt_app (cs1 cs2 : list call) (v : Vault) :
  attempt (cs1 ++ cs2) v
  = match attempt cs1 v with
    | (made1, v1, true) =>
        match attempt cs2 v1 with
        | (made2, v2, ok) => (made1 ++ made2, v2, ok)
        end
    | (made1, v1, false) => (made1, v1, false)
    end.
Proof.
  revert v. induction cs1 as [|c cs1 IH]; intros v; simpl.
  - destruct (attempt cs2 v) as [[made2 v2] ok]. reflexivity.
  - destruct (apply_call c v) as [[err|] v1]; [reflexivity|].
    rewrite IH. destruct (attempt cs1 v1) as [[made1 v2] [|]]; [|reflexivity].
    destruct (attempt cs2 v2) as [[made2 v3] ok]. reflexivity.
Qed.

(** A loop of remote calls over entries is the attempt of its calls. *)
Lemma loop_attempt (act : entry -> M Vault unit) (c : entry -> call)
    (es : list entry) :
  (forall e v,
      exists t,
        act e v
        = (match fst (apply_call (c e) v) with
           | None => Returned tt
           | Some _ => Exited 1
           end, snd (apply_call (c e) v), t)
        /\ mutations t = [c e]) ->
  forall v,
    exists t,
      for_each (map audit.Item_of es)
        (fun i => x ← lift (assert_entry (vault.underlying i)); act x) v
      = ((if snd (attempt (map c es) v) then Returned tt else Exited 1),
         snd (fst (attempt (map c es) v)), t)
      /\ mutations t = fst (fst (attempt (map c es) v)).
Proof.
  intros Hact. induction es as [|e es IH]; intros v.
  - exists []. split; reflexivity.
  - simpl for_each. rewrite run_bind. rewrite run_bind. simpl.
    destruct (Hact e v) as (t & -> & Ht).
    destruct (apply_call (c e) v) as [[err|] v1]; simpl.
    + exists t. split; [reflexivity|exact Ht].
    + destruct (IH v1) as (t2 & -> & Ht2).
      destruct (attempt (map c es) v1) as [[made v2] ok]. simpl in *.
      exists (t ++ t2). split; [reflexivity|].
      rewrite mutations_app, Ht, Ht2. reflexivity.
Qed.

Lemma enable_attempt (e : entry) (v : Vault) :
  exists t,
    audit.enable e v
    = (match fst (apply_call (audit.enable_call e) v) with
       | None => Returned tt
       | Some _ => Exited 1
       end, snd (apply_call (audit.enable_call e) v), t)
    /\ mutations t = [audit.enable_call e].
Proof.
  rewrite enable_run.
  change (apply_call (audit.enable_call e) v)
    with (EnableAuditWithOptions (Path e)
            {| EnableAudit_Type := Type_ e;
               EnableAudit_Description := Description e;
               EnableAudit_Options := Options e;
               EnableAudit_Local := false |} v).
  destruct (EnableAuditWithOptions _ _ v) as [[err|] v1];
    eexists; split; reflexivity.
Qed.

Lemma disable_attempt (e : entry) (v : Vault) :
  exists t,
    audit.disable e v
    = (match fst (apply_call (audit.disable_call e) v) with
       | None => Returned tt
       | Some _ => Exited 1
       end, snd (apply_call (audit.disable_call e) v), t)
    /\ mutations t = [audit.disable_call e].
Proof.
  rewrite disable_run.
  change (apply_call (audit.disable_call e) v) with (DisableAudit (Path e) v).
  destruct (DisableAudit _ v) as [[err|] v1];
    eexists; split; reflexivity.
Qed.

Lemma mutate_attempt (written deleted : list entry) (v : Vault) :
  exists t,
    audit.mutate (map audit.Item_of written) (map audit.Item_of deleted) v
    = ((if snd (attempt (map audit.enable_call written
                         ++ map audit.disable_call deleted) v)
        then Returned tt else Exited 1),
       snd (fst (attempt (map audit.enable_call written
                          ++ map audit.disable_call deleted) v)),
       t)
    /\ mutations t
       = fst (fst (attempt (map audit.enable_call written
                            ++ map audit.disable_call deleted) v)).
Proof.
  unfold audit.mutate. rewrite run_bind. rewrite attempt_app.
  destruct (loop_attempt audit.enable audit.enable_call written enable_attempt v)
    as (t1 & -> & Ht1).
  destruct (attempt (map audit.enable_call written) v) as [[made1 v1] [|]];
    simpl in *.
  - destruct (loop_attempt audit.disable audit.disable_call deleted
                disable_attempt v1) as (t2 & -> & Ht2).
    destruct (attempt (map audit.disable_call deleted) v1) as [[made2 v2] ok].
    simpl in *. exists (t1 ++ t2). split; [reflexivity|].
    rewrite mutations_app, Ht1, Ht2. reflexivity.
  - exists t1. split; [reflexivity|exact Ht1].
Qed.

(** X11. The mutating branch of [Apply] makes the enabling calls and then the
    disabling calls one after the other against the service and stops at
    the first that fails: it returns when none fails and exits with status
    1 otherwise; the calls in its trace are the calls made, the failed one
    last, and the service is left as the last call made left it. *)
Theorem mutate_is_sequential_attempt (written deleted : list entry) (v : Vault) :
  match
    attempt (map audit.enable_call written ++ map audit.disable_call deleted) v
  with
  | (made, v', ok) =>
      exists t,
        audit.mutate (map audit.Item_of written) (map audit.Item_of deleted) v
        = ((if ok then Returned tt else Exited 1), v', t)
        /\ mutations t = made
  end.
Proof.
  pose proof (mutate_attempt written deleted v) as Hm.
  destruct (attempt _ v) as [[made v'] ok]. exact Hm.
Qed.

(** X12. [Apply] leaves without any call that changes the service, and in the
    same way whatever the flag, when the bytes do not decode (no call at
    all), when the listing fails (only the listing is called), and when
    the listing holds a nil pointer (a panic after the listing). *)
Theorem Apply_aborts_without_mutation
    (entriesBytes : list Byte.byte) (dryRun : bool) (v : Vault) :
  (forall entries e,
      Unmarshal entriesBytes = (entries, Some e) ->
      audit.Apply entriesBytes dryRun v
      = (Exited 1, v,
         [Log FatalLevel [("error", e)]
            "failed to decode Audit Devices configuration"]))
  /\ (forall entries enabledAudits e v1,
         Unmarshal entriesBytes = (entries, None) ->
         ListAudit v = ((enabledAudits, Some e), v1) ->
         audit.Apply entriesBytes dryRun v
         = (Exited 1, v1,
            [Remote CallListAudit;
             Log FatalLevel [("error", e)]
               "failed to list Audit Devices from Vault instance"]))
  /\ (forall entries m v1,
         Unmarshal entriesBytes = (entries, None) ->
         ListAudit v = ((Some m, None), v1) ->
         In None (map snd (map_range m)) ->
         exists p,
           audit.Apply entriesBytes dryRun v = (Panicked p, v1, [Remote CallListAudit])).
Proof.
  split; [|split].
  - intros entries e Hu. apply (Apply_decode_error _ _ _ _ _ Hu).
  - intros entries enabledAudits e v1 Hu Hl.
    apply (Apply_list_error _ _ _ _ _ _ _ Hu Hl).
  - intros entries m v1 Hu Hl Hin.
    destruct (existing_loop_nil_pointer (map_range m) slice.make Hin) as [p Hp].
    exists p. apply (Apply_nil_pointer _ _ _ _ _ _ _ Hu Hl). exact Hp.
Qed.

(** X13. In a registry without its name, [init] registers the handler: then
    [toplevel.Apply] under that name is [config.Apply], and a second
    [init] panics. The name is lower case, which [ToLower] keeps. *)
Theorem init_registers_handler
    (configs : gmap string (toplevel.Configuration.t Vault)) :
  ToLower "vault_audit_backends" = "vault_audit_backends" ->
  configs !! "vault_audit_backends" = None ->
  exists configs',
    audit.init configs = Returned configs'
    /\ (forall entriesBytes dryRun,
           toplevel.Apply configs' "vault_audit_backends" entriesBytes dryRun
           = audit.Apply entriesBytes dryRun)
    /\ (exists msg, audit.init configs' = Panicked msg).
Proof.
  intros Hl Hfree.
  exists (<["vault_audit_backends" := audit.config]> configs).
  assert (audit.init configs
          = Returned (<["vault_audit_backends" := audit.config]> configs)) as Hi.
  { unfold audit.init. rewrite Register_stores; [rewrite Hl; reflexivity|discriminate|].
    rewrite Hl. exact Hfree. }
  split; [exact Hi|]. split.
  - intros entriesBytes dryRun.
    rewrite (Apply_found _ _ audit.config); [reflexivity|apply lookup_insert_eq].
  - unfold audit.init, toplevel.RegisterConfiguration. simpl String.eqb. cbv iota.
    rewrite Hl, lookup_insert_eq. eexists. reflexivity.
Qed.
Lemma omap_map_Some {A B C : Type} (f : B -> option C) (g : A -> B) (h : A -> C)
    (l : list A) :
  (forall x, f (g x) = Some (h x)) -> omap f (map g l) = map h l.
Proof.
  intros Hf. induction l as [|x l IH]; [reflexivity|].
  cbn. rewrite Hf. cbn. f_equal. exact IH.
Qed.

Lemma previewed_reports (written deleted : list entry) :
  omap previewed
    (map audit.written_report (map audit.Item_of written)
     ++ map audit.deleted_report (map audit.Item_of deleted))
  = map audit.enable_call written ++ map audit.disable_call deleted.
Proof.
  rewrite omap_app, !List.map_map. f_equal; apply omap_map_Some; reflexivity.
Qed.

Lemma find_same_key_Permutation (obs1 obs2 : list vault.Item) (d : vault.Item) :
  List.NoDup (map vault.Key obs1) -> Permutation obs1 obs2 ->
  find (fun o => vault.same_key o d) obs1 = find (fun o => vault.same_key o d) obs2.
Proof.
  intros Hnd Hp.
  assert (List.NoDup (map vault.Key obs2)) as Hnd2.
  { apply (Permutation_NoDup (l := map vault.Key obs1)); [|exact Hnd].
    apply Permutation_map. exact Hp. }
  destruct (find _ obs1) as [o|] eqn:F1.
  - apply List.find_some in F1 as [Hin Hk]. symmetry.
    apply (find_by_key obs2 o d Hnd2).
    + apply (Permutation_in _ Hp). exact Hin.
    + apply same_key_true. exact Hk.
  - destruct (find _ obs2) as [o|] eqn:F2; [|reflexivity].
    apply List.find_some in F2 as [Hin Hk].
    apply (Permutation_in _ (Permutation_sym Hp)) in Hin.
    rewrite (List.find_none _ _ F1 o Hin) in Hk. discriminate.
Qed.

Lemma filter_Permutation_list {A : Type} (f : A -> bool) (l l' : list A) :
  Permutation l l' -> Permutation (List.filter f l) (List.filter f l').
Proof.
  induction 1 as [|x l l' Hp IH|x y l|l l' l'' Hp1 IH1 Hp2 IH2]; simpl.
  - apply perm_nil.
  - destruct (f x); [apply perm_skip|]; exact IH.
  - destruct (f x), (f y); try apply Permutation_refl.
    apply perm_swap.
  - exact (perm_trans IH1 IH2).
Qed.

Lemma map_Some_inj {A : Type} (l l' : list A) : map Some l = map Some l' -> l = l'.
Proof.
  revert l'. induction l as [|x l IH]; intros [|y l'] E; try discriminate.
  - reflexivity.
  - simpl in E. injection E as -> E. f_equal. apply IH. exact E.
Qed.

Lemma existing_loop_returned (kvs : list (string * option Audit))
    (acc : list entry) (s : slice.t entry) :
  audit.existing_loop (Some acc) kvs = Returned s ->
  exists audits,
    map snd kvs = map Some audits /\ s = Some (acc ++ map entry_of_audit audits).
Proof.
  revert acc. induction kvs as [|[k [a|]] kvs IH]; intros acc E.
  - simpl in E. injection E as <-. exists []. rewrite app_nil_r. split; reflexivity.
  - simpl in E. apply IH in E as (audits & Hs & ->). exists (a :: audits).
    simpl. rewrite Hs, <- app_assoc. split; reflexivity.
  - discriminate.
Qed.

(** Two runs that visit the listing in two orders observe the same
    devices, in two orders. *)
Lemma existing_with_range
    (range : gmap string (option Audit) -> list (string * option Audit))
    (enabledAudits : option (gmap string (option Audit))) (ex1 : slice.t entry) :
  audit.existing enabledAudits = Returned ex1 ->
  (forall m, enabledAudits = Some m -> Permutation (map_range m) (range m)) ->
  exists o2,
    audit.existing (L := with_range L range) enabledAudits = Returned (Some o2)
    /\ Permutation (slice.elems ex1) o2.
Proof.
  intros He Hp. destruct enabledAudits as [m|].
  - unfold audit.existing, slice.make in He.
    apply existing_loop_returned in He as (audits1 & Hs1 & ->).
    pose proof (Permutation_map snd (Hp m eq_refl)) as Hps. rewrite Hs1 in Hps.
    apply Permutation_sym, Permutation_map_inv in Hps as (audits2 & Hs2 & Hpa).
    exists (map entry_of_audit audits2). split.
    + unfold audit.existing, slice.make. simpl map_range.
      rewrite (existing_loop_all _ audits2 [] Hs2). reflexivity.
    + simpl. apply Permutation_map. exact Hpa.
  - injection He as <-. exists []. split; [reflexivity|apply Permutation_refl].
Qed.

(** X14. A dry run previews the run that is not dry up to the order in
    which the listing is visited. Let the two runs decode the same bytes
    and list the same devices, with distinct paths, each visiting the map
    in its own order. Then the run that is not dry attempts, after its
    listing, the enabling calls the dry run announces, in their order,
    and then the disabling calls the dry run announces, in some order of
    its own; it stops at the first call that fails. *)
Theorem dry_run_previews_up_to_order
    (range : gmap string (option Audit) -> list (string * option Audit))
    (entriesBytes : list Byte.byte) (v v1 : Vault)
    (entries existingAudits : slice.t entry)
    (enabledAudits : option (gmap string (option Audit))) :
  Unmarshal entriesBytes = (entries, None) ->
  ListAudit v = ((enabledAudits, None), v1) ->
  audit.existing enabledAudits = Returned existingAudits ->
  (forall m, enabledAudits = Some m -> Permutation (map_range m) (range m)) ->
  List.NoDup (map Path (slice.elems existingAudits)) ->
  exists written deleted deleted' : list entry,
    omap previewed (trace_of (audit.Apply entriesBytes true v))
    = map audit.enable_call written ++ map audit.disable_call deleted
    /\ Permutation deleted deleted'
    /\ match
         attempt (map audit.enable_call written ++ map audit.disable_call deleted') v1
       with
       | (made, v2, ok) =>
           exists t,
             audit.Apply (L := with_range L range) entriesBytes false v
             = ((if ok then Returned tt else Exited 1), v2,
                Remote CallListAudit :: t)
             /\ mutations t = made
       end.
Proof.
  intros Hu Hl He Hp Hnd.
  destruct (existing_with_range range enabledAudits existingAudits He Hp)
    as (o2 & He2 & Hpo).
  set (es := slice.elems entries).
  set (o1 := slice.elems existingAudits) in *.
  set (keep := fun e => vault.to_delete (map audit.Item_of es) (audit.Item_of e)).
  exists (List.filter (fun e => vault.to_write (map audit.Item_of o1) (audit.Item_of e)) es),
    (List.filter keep o1), (List.filter keep o2).
  split; [|split].
  - rewrite (Apply_run _ true v v1 _ _ _ Hu Hl He). cbv iota.
    rewrite !asItems_elems. cbn [slice.elems]. fold es o1.
    unfold vault.DiffItems. cbn [fst snd]. rewrite !filter_Items.
    rewrite report_run. unfold trace_of. cbn [snd].
    change (omap previewed (Remote CallListAudit :: ?l)) with (omap previewed l).
    apply previewed_reports.
  - apply filter_Permutation_list. exact Hpo.
  - rewrite (Apply_run (L := with_range L range) _ false v v1 entries (Some o2)
               enabledAudits Hu Hl He2). cbv iota.
    rewrite !(asItems_elems (L := with_range L range)). cbn [slice.elems]. fold es.
    change (audit.Item_of (L := with_range L range)) with (audit.Item_of (L := L)).
    unfold vault.DiffItems. cbn [fst snd]. rewrite !filter_Items. fold keep.
    assert (List.filter
              (fun e => vault.to_write (map audit.Item_of o2) (audit.Item_of e)) es
            = List.filter
                (fun e => vault.to_write (map audit.Item_of o1) (audit.Item_of e)) es)
      as ->.
    { apply List.filter_ext. intros e. unfold vault.to_write.
      rewrite (find_same_key_Permutation (map audit.Item_of o1) (map audit.Item_of o2));
        [reflexivity| |apply Permutation_map; exact Hpo].
      rewrite List.map_map. exact Hnd. }
    destruct (mutate_attempt
                (List.filter
                   (fun e => vault.to_write (map audit.Item_of o1) (audit.Item_of e)) es)
                (List.filter keep o2) v1) as (t & -> & Ht).
    destruct (attempt _ v1) as [[made v2] ok]. cbn [fst snd] in *.
    exists t. split; [reflexivity|exact Ht].
Qed.
End runs_more.

(** ** The further statements at concrete inputs *)

Lemma lower_string_never_A (n : string) : testing.lower_string n <> "A".
Proof.
  destruct n as [|c n]; [discriminate|].
  simpl. intros E. injection E as E _. revert E.
  destruct c as [[] [] [] [] [] [] [] []]; vm_compute; discriminate.
Qed.

(** Registering ["B"] after ["A"] keeps the entry of ["a"]. *)
Lemma a_kept_when_B_registered :
  (forall k h,
      (<["a" := testing.recorder]> ∅ : gmap string _) !! k = Some h ->
      (<["b" := testing.recorder]> (<["a" := testing.recorder]> ∅) : gmap string _) !! k
      = Some h)
  /\ (forall k cfg dryRun,
         k <> "b" ->
         toplevel.Apply (<["b" := testing.recorder]> (<["a" := testing.recorder]> ∅))
           k cfg dryRun
         = toplevel.Apply (<["a" := testing.recorder]> ∅) k cfg dryRun)
  /\ size (<["b" := testing.recorder]> (<["a" := testing.recorder]> ∅)
           : gmap string _)
     = Datatypes.S (size (<["a" := testing.recorder]> ∅ : gmap string _)).
Proof.
  apply (RegisterConfiguration_keeps_entries (L := testing.library)
           (<["a" := testing.recorder]> ∅)
           (<["b" := testing.recorder]> (<["a" := testing.recorder]> ∅))
           "B" (Some testing.recorder)).
  apply (Register_stores (L := testing.library)); [discriminate|].
  rewrite lookup_insert_ne by discriminate. apply lookup_empty.
Defined.

(** After ["A"], registering ["a"] panics even with a nil handler. *)
Lemma a_after_A_panics :
  exists msg,
    toplevel.RegisterConfiguration (L := testing.library)
      (<["a" := testing.recorder]> ∅) "a" None
    = Panicked msg.
Proof.
  apply (RegisterConfiguration_twice_panics (L := testing.library)
           ∅ (<["a" := testing.recorder]> ∅) "A" "a" (Some testing.recorder) None).
  - apply (Register_stores (L := testing.library)); [discriminate|apply lookup_empty].
  - reflexivity.
Defined.

(** ["A"] then ["B"], or ["B"] then ["A"]. *)
Lemma A_B_in_either_order :
  exists configs2,
    toplevel.RegisterConfiguration (L := testing.library) ∅ "B" (Some testing.recorder)
    = Returned configs2
    /\ toplevel.RegisterConfiguration (L := testing.library) configs2 "A"
         (Some testing.recorder)
       = Returned (<["b" := testing.recorder]> (<["a" := testing.recorder]> ∅)).
Proof.
  apply (RegisterConfiguration_commutes (L := testing.library)
           ∅ (<["a" := testing.recorder]> ∅)
           (<["b" := testing.recorder]> (<["a" := testing.recorder]> ∅))
           "A" "B" (Some testing.recorder) (Some testing.recorder)).
  - apply (Register_stores (L := testing.library)); [discriminate|apply lookup_empty].
  - apply (Register_stores (L := testing.library)); [discriminate|].
    rewrite lookup_insert_ne by discriminate. apply lookup_empty.
Defined.

(** No registration makes [Apply] find the name ["A"]. *)
Lemma A_is_never_found :
  toplevel.Apply (<["a" := testing.recorder]> ∅) "A" [Byte.x61] true []
  = (Exited 1, [], [toplevel.not_found "A"]).
Proof.
  apply (Apply_needs_lower_case_name (L := testing.library)).
  - apply (built_step (L := testing.library) ∅ "A" (Some testing.recorder));
      [apply built_empty|].
    apply (Register_stores (L := testing.library)); [discriminate|apply lookup_empty].
  - exact lower_string_never_A.
Defined.

(** A listing of the one device [a] under the key [a/]. *)
Lemma listing_of_a :
  audit.existing (L := testing.library) (Some {["a/" := Some (testing.listed "a")]})
  = Returned (Some [testing.device Byte.x61]).
Proof.
  apply (proj1 (existing_field_for_field (L := testing.library)
                  {["a/" := Some (testing.listed "a")]}) [testing.listed "a"]).
  vm_compute. reflexivity.
Defined.

(** The device [a], listed as a local device beside [c], is read as the
    entry that was enabled. *)
Lemma a_enabled_then_listed :
  audit.existing (L := testing.library)
    (Some {["c/" := Some (testing.listed "c");
            "a/" := Some {| Audit_Type := "file";
                            Audit_Description := "";
                            Audit_Options := None;
                            Audit_Local := true;
                            Audit_Path := "a" |}]})
  = Returned (Some (map entry_of_audit [testing.listed "c"]
                    ++ testing.device Byte.x61 :: map entry_of_audit [])).
Proof.
  apply (enable_then_list_round_trip (L := testing.library)
           (testing.device Byte.x61) "a"
           {| EnableAudit_Type := "file";
              EnableAudit_Description := "";
              EnableAudit_Options := None;
              EnableAudit_Local := false |}
           {| Audit_Type := "file";
              Audit_Description := "";
              Audit_Options := None;
              Audit_Local := true;
              Audit_Path := "a" |});
    reflexivity.
Defined.

(** With the reference helpers [Equals] is reflexive and symmetric. *)
Lemma Equals_of_a_and_c :
  audit.Equals (L := testing.library) (testing.device Byte.x61)
    (of_entry (testing.device Byte.x61))
  = true
  /\ audit.Equals (L := testing.library) (testing.device Byte.x61)
       (of_entry (testing.device Byte.x63))
     = audit.Equals (L := testing.library) (testing.device Byte.x63)
         (of_entry (testing.device Byte.x61)).
Proof.
  apply (Equals_reflexive_symmetric (L := testing.library)).
  - exact String.eqb_refl.
  - intros o. apply bool_decide_eq_true. reflexivity.
  - exact String.eqb_sym.
  - intros o o'. apply bool_decide_ext. split; intros E; symmetry; exact E.
Defined.

(** Bytes that do not decode: the process exits before any call. *)
Lemma undecodable_bytes :
  audit.Apply (S := testing.memory) (L := testing.library) [Byte.x00] false []
  = (Exited 1, [],
     [Log FatalLevel [("error", "yaml: did not find expected node")]
        "failed to decode Audit Devices configuration"]).
Proof.
  apply (proj1 (Apply_aborts_without_mutation (S := testing.memory)
                  (L := testing.library) [Byte.x00] false []) None).
  reflexivity.
Defined.

(** [init] in the empty registry. *)
Lemma init_in_empty_registry :
  exists configs',
    audit.init (S := testing.memory) (L := testing.library) ∅ = Returned configs'
    /\ (forall entriesBytes dryRun,
           toplevel.Apply configs' "vault_audit_backends" entriesBytes dryRun
           = audit.Apply (S := testing.memory) (L := testing.library)
               entriesBytes dryRun)
    /\ (exists msg,
           audit.init (S := testing.memory) (L := testing.library) configs'
           = Panicked msg).
Proof.
  apply (init_registers_handler (S := testing.memory) (L := testing.library) ∅).
  - reflexivity.
  - apply lookup_empty.
Defined.

(** The dry run on [a] and [b] against [a], [c] and [d], and the run
    that is not dry and visits the listing in the reverse order. *)
Lemma a_b_previewed_in_reverse :
  exists written deleted deleted' : list entry,
    omap previewed
      (trace_of
         (audit.Apply (S := testing.memory) (L := testing.library)
            [Byte.x61; Byte.x62] true
            [testing.listed "a"; testing.listed "c"; testing.listed "d"]))
    = map audit.enable_call written ++ map audit.disable_call deleted
    /\ Permutation deleted deleted'
    /\ match
         attempt (S := testing.memory)
           (map audit.enable_call written ++ map audit.disable_call deleted')
           [testing.listed "a"; testing.listed "c"; testing.listed "d"]
       with
       | (made, v2, ok) =>
           exists t,
             audit.Apply (S := testing.memory)
               (L := with_range testing.library (fun m => rev (map_to_list m)))
               [Byte.x61; Byte.x62] false
               [testing.listed "a"; testing.listed "c"; testing.listed "d"]
             = ((if ok then Returned tt else Exited 1), v2,
                Remote CallListAudit :: t)
             /\ mutations t = made
       end.
Proof.
  eapply (dry_run_previews_up_to_order (S := testing.memory) (L := testing.library)
            (fun m => rev (map_to_list m))
            [Byte.x61; Byte.x62]
            [testing.listed "a"; testing.listed "c"; testing.listed "d"]
            [testing.listed "a"; testing.listed "c"; testing.listed "d"]
            (Some [testing.device Byte.x61; testing.device Byte.x62])).
  - reflexivity.
  - reflexivity.
  - vm_compute. reflexivity.
  - intros m _. apply Permutation_rev.
  - vm_compute. repeat (apply List.NoDup_cons; [simpl; intuition discriminate|]).
    apply List.NoDup_nil.
Defined.

(** In that example the two runs differ: [c] and [d] are announced in
    one order and disabled in the other. *)
Example a_b_orders_differ :
  omap previewed
    (trace_of
       (audit.Apply (S := testing.memory) (L := testing.library)
          [Byte.x61; Byte.x62] true
          [testing.listed "a"; testing.listed "c"; testing.listed "d"]))
  = [audit.enable_call (testing.device Byte.x62);
     CallDisableAudit "c"; CallDisableAudit "d"]
  /\ mutations
       (trace_of
          (audit.Apply (S := testing.memory)
             (L := with_range testing.library (fun m => rev (map_to_list m)))
             [Byte.x61; Byte.x62] false
             [testing.listed "a"; testing.listed "c"; testing.listed "d"]))
     = [audit.enable_call (testing.device Byte.x62);
        CallDisableAudit "d"; CallDisableAudit "c"].
Proof. split; vm_compute; reflexivity. Qed.

(** What that attempt is: [b] enabled, [c] disabled, none failed. *)
Example a_b_attempt :
  attempt (S := testing.memory)
    [audit.enable_call (testing.device Byte.x62);
     audit.disable_call (testing.device Byte.x63)]
    [testing.listed "a"; testing.listed "c"]
  = ([audit.enable_call (testing.device Byte.x62);
      audit.disable_call (testing.device Byte.x63)],
     [testing.listed "a"; testing.listed "b"], true).
Proof. vm_compute. reflexivity. Qed.

(** Enabling [a] where it is enabled fails, and [c] is not disabled. *)
Example a_a_attempt :
  attempt (S := testing.memory)
    [audit.enable_call (testing.device Byte.x61);
     audit.disable_call (testing.device Byte.x63)]
    [testing.listed "a"; testing.listed "c"]
  = ([audit.enable_call (testing.device Byte.x61)],
     [testing.listed "a"; testing.listed "c"], false).
Proof. vm_compute. reflexivity. Qed.
